(** * MCP trading server: session manager, pivot detector and strategy engine

    A shallow embedding of the core of [mcp-cursor-integration.js]:
    the token state and [ensureValidToken], the pivot detector
    [calculateMCP], and the decision logic of the [/strategy/mcp] route.

    JavaScript numbers are IEEE 754 binary64 values; they are modelled by
    Rocq's primitive floats, which are the same format with the same
    round-to-nearest-even arithmetic, so [NaN], the infinities and the two
    zeros behave as they do in the source. *)

From Stdlib Require Import String.
From Stdlib Require Import ZArith List Bool Lia.
From Stdlib Require Import Floats.
Import ListNotations.

Set Warnings "-inexact-float".

(** ** JavaScript numbers *)

Module JsNum.

Definition number := float.

(** [a > b] on numbers: false as soon as one side is NaN. *)
Definition gt (a b : number) : bool := PrimFloat.ltb b a.

(** [a <= b] on numbers: false as soon as one side is NaN. *)
Definition le (a b : number) : bool := PrimFloat.leb a b.

(** The number value of an array length (always below 2^32). *)
Definition of_nat (n : nat) : number :=
  PrimFloat.of_uint63 (Uint63.of_Z (Z.of_nat n)).

Definition of_Z_small (z : Z) : number :=
  PrimFloat.of_uint63 (Uint63.of_Z z).

(** [Math.abs]. *)
Definition Math_abs (x : number) : number := PrimFloat.abs x.

(** [Math.floor]: the largest integral number not above [x]; NaN, the
    infinities and both zeros are returned unchanged.  A finite value is
    [m * 2^e] with [m < 2^53]; with [e >= 0] it is integral already. *)
Definition Math_floor (x : number) : number :=
  match Prim2SF x with
  | S754_finite s m e =>
      if (0 <=? e)%Z then x
      else
        let q := Z.shiftr (Z.pos m) (- e) in
        let exact := (Z.shiftl q (- e) =? Z.pos m)%Z in
        if s then
          if exact then x else PrimFloat.opp (of_Z_small (q + 1))
        else of_Z_small q
  | _ => x
  end.

(** A number that is neither NaN, nor infinite, nor a zero. *)
Definition finite_nonzero (x : number) : bool :=
  match Prim2SF x with
  | S754_finite _ _ _ => true
  | _ => false
  end.

End JsNum.

(** ** PivotDetector: [calculateMCP] *)

Module PivotDetector.
Import JsNum.

(** A data point [{timestamp, price}]; the timestamp is the time value
    of the candle's [Date]. *)
Record PricePoint := mkPoint { timestamp : Z; price : number }.

(** An element of [connections]: [{...pivot, connections}]. *)
Record Pivot := mkPivot
  { pivot_timestamp : Z; pivot_price : number; connections : nat }.

(** [dataPoints.reduce((acc, point) => acc + point.price, 0)] *)
Definition sumPrices (dataPoints : list PricePoint) : number :=
  fold_left (fun acc point => (acc + price point)%float) dataPoints 0%float.

(** [sum / dataPoints.length] *)
Definition avgPrice (dataPoints : list PricePoint) : number :=
  (sumPrices dataPoints / of_nat (length dataPoints))%float.

(** The loop [for (let i = 1; ...)] over the points after the first:
    [aboveAvg] is the tracked state, a point whose side of the average
    differs from it is pushed and becomes the new state. *)
Fixpoint crossovers (avg : number) (aboveAvg : bool)
    (rest : list PricePoint) : list PricePoint :=
  match rest with
  | [] => []
  | point :: rest' =>
      let currentAboveAvg := gt (price point) avg in
      if Bool.eqb currentAboveAvg aboveAvg
      then crossovers avg aboveAvg rest'
      else mkPoint (timestamp point) (price point)
           :: crossovers avg currentAboveAvg rest'
  end.

(** The array [pivotPoints] at the end of the loop. *)
Definition pivotPoints (dataPoints : list PricePoint) : list PricePoint :=
  match dataPoints with
  | [] => []
  | first :: rest =>
      let avg := avgPrice dataPoints in
      crossovers avg (gt (price first) avg) rest
  end.

(** The test of the inner [forEach]:
    [Math.abs(pivot.price - point.price) / pivot.price <= 0.001]. *)
Definition connected (pivot point : PricePoint) : bool :=
  le (Math_abs (price pivot - price point) / price pivot)%float 0.001%float.

(** The inner [forEach]: [connectionCount++] on every connected point. *)
Definition countConnections (dataPoints : list PricePoint)
    (pivot : PricePoint) : nat :=
  fold_left
    (fun connectionCount point =>
       if connected pivot point then S connectionCount else connectionCount)
    dataPoints 0.

(** [pivotPoints.map(pivot => ({...pivot, connections: connectionCount}))] *)
Definition withConnections (dataPoints : list PricePoint)
    (pivots : list PricePoint) : list Pivot :=
  map (fun pivot =>
         mkPivot (timestamp pivot) (price pivot)
                 (countConnections dataPoints pivot))
      pivots.

(** The comparator [(a, b) => b.connections - a.connections]. *)
Definition byConnectionsDesc (a b : Pivot) : Z :=
  Z.of_nat (connections b) - Z.of_nat (connections a).

(** [Array.prototype.sort] with a comparator.  ECMAScript requires the
    sort to be stable, and for a consistent comparator every stable sort
    yields the same array; it is computed here by insertion from the
    right, an element staying in front of those it does not compare
    greater than. *)
Section Sort.
Context {A : Type} (cmp : A -> A -> Z).

Fixpoint insertSorted (x : A) (sorted : list A) : list A :=
  match sorted with
  | [] => [x]
  | y :: sorted' =>
      if (cmp x y <=? 0)%Z then x :: y :: sorted'
      else y :: insertSorted x sorted'
  end.

Fixpoint sort (l : list A) : list A :=
  match l with
  | [] => []
  | x :: l' => insertSorted x (sort l')
  end.
End Sort.

(** [calculateMCP(dataPoints)]; [None] is the source's [null]. *)
Definition calculateMCP (dataPoints : list PricePoint) : option Pivot :=
  match dataPoints with
  | [] => None
  | _ :: _ =>
      let connections :=
        withConnections dataPoints (pivotPoints dataPoints) in
      match sort byConnectionsDesc connections with
      | [] => None
      | best :: _ => Some best
      end
  end.

(** The candidates of a series with their connection counts, in the
    order of the walk: the array [connections] before it is sorted. *)
Definition candidates (dataPoints : list PricePoint) : list Pivot :=
  withConnections dataPoints (pivotPoints dataPoints).

(** No point after the first is on another side of the average than
    the first: the series never crosses its average. *)
Definition noCrossover (dataPoints : list PricePoint) : Prop :=
  match dataPoints with
  | [] => True
  | first :: rest =>
      Forall (fun pt => gt (price pt) (avgPrice dataPoints)
                        = gt (price first) (avgPrice dataPoints)) rest
  end.

(** Each price is strictly below the next one. *)
Fixpoint strictlyIncreasing (dataPoints : list PricePoint) : bool :=
  match dataPoints with
  | a :: (b :: _) as rest => gt (price b) (price a) && strictlyIncreasing rest
  | _ => true
  end.

(** Each price is strictly above the next one. *)
Fixpoint strictlyDecreasing (dataPoints : list PricePoint) : bool :=
  match dataPoints with
  | a :: (b :: _) as rest => gt (price a) (price b) && strictlyDecreasing rest
  | _ => true
  end.

Definition strictlyMonotonic (dataPoints : list PricePoint) : bool :=
  strictlyIncreasing dataPoints || strictlyDecreasing dataPoints.

(** A series given by its prices, point [i] stamped [i]. *)
Definition series (prices : list number) : list PricePoint :=
  map (fun ip => mkPoint (Z.of_nat (fst ip)) (snd ip))
      (combine (seq 0 (length prices)) prices).

(** Sample series. *)
Definition rising : list PricePoint := series [1; 2; 3]%float.
Definition fallingToZero : list PricePoint := series [1; 0]%float.
Definition zigzag : list PricePoint :=
  series [1; 3; 1; 3; 1; 3.001]%float.
Definition sixPoints : list PricePoint :=
  series [100; 105; 95; 102; 100; 101]%float.

End PivotDetector.

(** ** StrategyEngine: the decision logic of [app.post('/strategy/mcp')] *)

Module StrategyEngine.
Import JsNum PivotDetector.

Inductive Side := BUY | SELL.

(** The [orderRequest] object handed to [orderApi.placeOrder]. *)
Record OrderRequest := mkOrder
  { order_symbol : string;
    order_quantity : number;
    order_side : Side;
    order_orderType : string;
    order_price : option number;
    order_validity : string;
    order_disclosedQuantity : number;
    order_triggerPrice : option number;
    order_isAmo : bool }.

(** [Math.abs(currentPrice - mcp.price) / mcp.price] *)
Definition mcpDeviation (currentPrice : number) (mcp : Pivot) : number :=
  (Math_abs (currentPrice - pivot_price mcp) / pivot_price mcp)%float.

(** [dataPoints.slice(-10)] *)
Definition recentPoints (dataPoints : list PricePoint) : list PricePoint :=
  skipn (length dataPoints - 10) dataPoints.

(** [recentPoints.reduce((sum, p) => sum + p.price, 0) / recentPoints.length] *)
Definition avgRecentPrice (dataPoints : list PricePoint) : number :=
  let recent := recentPoints dataPoints in
  (fold_left (fun sum p => sum + price p) recent 0 / of_nat (length recent))%float.

(** The locals [action] and [orderPrice] after the block
    "Determine trading action based on MCP analysis"; [None] is [null]. *)
Record Decision := mkDecision
  { action : option Side; orderPrice : option number }.

Definition decide (dataPoints : list PricePoint) (mcp : Pivot)
    (currentPrice : number) : Decision :=
  if le (mcpDeviation currentPrice mcp) 0.005%float then
    mkDecision
      (Some (if gt currentPrice (avgRecentPrice dataPoints) then BUY else SELL))
      (Some currentPrice)
  else mkDecision None None.

(** [Math.floor(investmentAmount / currentPrice)] *)
Definition quantityFor (investmentAmount currentPrice : number) : number :=
  Math_floor (investmentAmount / currentPrice)%float.

(** What the route answers.  [analysis.mcpDeviation] is the string
    [mcpDeviation * 100 + '%'], kept as the number in front of the sign. *)
Inductive Response :=
| NoMcpFound404
| OrderPlaced (side : Side) (order : string) (mcp : Pivot)
    (currentPrice deviationPercent : number) (connectionStrength : nat)
| AmountTooSmall400
| Hold (mcp : Pivot) (currentPrice deviationPercent : number)
    (connectionStrength : nat)
| StrategyFailed500.

(** The route from "Calculate MCP" on, once the candles and the quote
    have been fetched.  [placeOrder] is the order-placement collaborator
    ([None]: it throws); the second component lists the requests sent
    to it. *)
Definition strategyMcp (placeOrder : OrderRequest -> option string)
    (symbol : string) (dataPoints : list PricePoint)
    (currentPrice investmentAmount : number)
    : Response * list OrderRequest :=
  match calculateMCP dataPoints with
  | None => (NoMcpFound404, [])
  | Some mcp =>
      let deviation := mcpDeviation currentPrice mcp in
      let d := decide dataPoints mcp currentPrice in
      match action d with
      | Some side =>
          let quantity := quantityFor investmentAmount currentPrice in
          if gt quantity 0%float then
            let orderRequest :=
              mkOrder symbol quantity side "LIMIT" (orderPrice d) "DAY"
                      0%float None false in
            match placeOrder orderRequest with
            | Some data =>
                (OrderPlaced side data mcp currentPrice
                   (deviation * 100)%float (connections mcp),
                 [orderRequest])
            | None => (StrategyFailed500, [orderRequest])
            end
          else (AmountTooSmall400, [])
      | None =>
          (Hold mcp currentPrice (deviation * 100)%float (connections mcp), [])
      end
  end.

(** A sample collaborator that accepts every order. *)
Definition acceptOrder : OrderRequest -> option string :=
  fun _ => Some "order-1"%string.

End StrategyEngine.

(** ** SessionManager: [authState] and [ensureValidToken] *)

Module SessionManager.

(** A [Date]: its time value in milliseconds, or an invalid date.  Time
    values are taken inside the range a [Date] can hold. *)
Inductive Date := ValidDate (t : Z) | InvalidDate.

(** [a > b] on dates compares the time values; an invalid date has the
    time value NaN, for which every comparison is false. *)
Definition Date_gt (a b : Date) : bool :=
  match a, b with
  | ValidDate x, ValidDate y => (y <? x)%Z
  | _, _ => false
  end.

(** What the [expiresAt] field can hold: nothing, [null], the ISO string
    of a time value (what [toISOString] writes), or another string. *)
Inductive ExpiresAt :=
| ExpUndefined
| ExpNull
| ExpIso (t : Z)
| ExpOther (s : string).

Definition nonEmpty (s : string) : bool :=
  match s with EmptyString => false | String _ _ => true end.

(** Truthiness of a token field ([None]: [null] or [undefined]). *)
Definition truthy (token : option string) : bool :=
  match token with Some s => nonEmpty s | None => false end.

Definition truthyExp (e : ExpiresAt) : bool :=
  match e with
  | ExpIso _ => true
  | ExpOther s => nonEmpty s
  | ExpUndefined | ExpNull => false
  end.

(** [new Date(value)] *)
Definition new_Date (e : ExpiresAt) : Date :=
  match e with
  | ExpIso t => ValidDate t
  | ExpNull => ValidDate 0
  | ExpUndefined | ExpOther _ => InvalidDate
  end.

Record AuthState := mkAuth
  { accessToken : option string;
    refreshToken : option string;
    expiresAt : ExpiresAt;
    isAuthenticated : bool }.

(** The mutable globals: [authState] and the token held by the SDK
    client, [upstoxClient.authentications['OAUTH2'].accessToken]. *)
Record Server := mkServer
  { authState : AuthState; sdkAccessToken : option string }.

Definition initialAuthState : AuthState := mkAuth None None ExpNull false.

(** The body posted to [UPSTOX_TOKEN_URL], by grant type. *)
Inductive TokenRequest :=
| RefreshTokenGrant (refresh_token : option string)
| AuthorizationCodeGrant (code : string).

(** [response.data]; [expires_in] is [None] when it is missing or not a
    number. *)
Record TokenResponse := mkResponse
  { access_token : option string;
    refresh_token : option string;
    expires_in : option Z }.

(** Why [axios.post] rejected. *)
Inductive TokenError :=
| InvalidGrant
| NetworkError.

Definition TokenEndpoint := TokenRequest -> TokenResponse + TokenError.

(** What a call does outside the process. *)
Inductive Event :=
| PostToken (req : TokenRequest)
| WriteTokenFile (content : option AuthState)
| ConsoleError.

Definition isPost (e : Event) : bool :=
  match e with PostToken _ => true | _ => false end.

(** The state built from a token response at clock reading [now]:
    [new Date(Date.now() + expires_in * 1000).toISOString()] throws a
    [RangeError] on an invalid date, before [authState] is assigned. *)
Definition stateFromResponse (now : Z) (r : TokenResponse)
    : option AuthState :=
  match expires_in r with
  | Some seconds =>
      Some (mkAuth (access_token r) (refresh_token r)
                   (ExpIso (now + seconds * 1000)) true)
  | None => None
  end.

(** [ensureValidToken()].  [now] is the reading of [new Date()] at the
    check, [nowAfter] that of [Date.now()] once the response is in. *)
Definition ensureValidToken (post : TokenEndpoint) (now nowAfter : Z)
    (st : Server) : bool * Server * list Event :=
  let a := authState st in
  if negb (truthy (refreshToken a)) || negb (truthyExp (expiresAt a)) then
    (false, st, [])
  else
    let expires := new_Date (expiresAt a) in
    let fiveMinutesFromNow := ValidDate (now + 5 * 60 * 1000) in
    if Date_gt expires fiveMinutesFromNow then (true, st, [])
    else
      let req := RefreshTokenGrant (refreshToken a) in
      match post req with
      | inl response =>
          match stateFromResponse nowAfter response with
          | Some a' =>
              (true, mkServer a' (accessToken a'),
               [PostToken req; WriteTokenFile (Some a')])
          | None => (false, st, [PostToken req; ConsoleError])
          end
      | inr _ => (false, st, [PostToken req; ConsoleError])
      end.

(** [requireAuth]: [next()] or a 401, by [ensureValidToken]. *)
Definition requireAuth (post : TokenEndpoint) (now nowAfter : Z)
    (st : Server) : bool * Server * list Event :=
  ensureValidToken post now nowAfter st.

(** The [/callback] route: the authorization-code exchange.  The
    boolean tells success (200) from failure (400 without a code, 500
    when the exchange fails). *)
Definition callback (post : TokenEndpoint) (code : string) (nowAfter : Z)
    (st : Server) : bool * Server * list Event :=
  if negb (nonEmpty code) then (false, st, [])
  else
    let req := AuthorizationCodeGrant code in
    match post req with
    | inl response =>
        match stateFromResponse nowAfter response with
        | Some a' =>
            (true, mkServer a' (accessToken a'),
             [PostToken req; WriteTokenFile (Some a')])
        | None => (false, st, [PostToken req; ConsoleError])
        end
    | inr _ => (false, st, [PostToken req; ConsoleError])
    end.

(** The [/logout] route: the state is cleared and [{}] written to the
    token file; the SDK client keeps its token. *)
Definition logout (st : Server) : Server * list Event :=
  (mkServer (mkAuth None None ExpNull false) (sdkAccessToken st),
   [WriteTokenFile None]).

(** The token file at startup: missing, not valid JSON, or an object. *)
Inductive TokenFile :=
| NoFile
| Unparsable
| Parsed (tokenData : AuthState).

(** "Load tokens from file if exists", at clock reading [now]; the
    [isAuthenticated] of the file is overridden. *)
Definition loadTokens (file : TokenFile) (now : Z) : Server :=
  match file with
  | Parsed tokenData =>
      let authenticated :=
        truthy (accessToken tokenData)
        && Date_gt (new_Date (expiresAt tokenData)) (ValidDate now) in
      mkServer
        (mkAuth (accessToken tokenData) (refreshToken tokenData)
                (expiresAt tokenData) authenticated)
        (if authenticated then accessToken tokenData else None)
  | NoFile | Unparsable => mkServer initialAuthState None
  end.

(** The invariant of the token state, read at clock value [now]. *)
Definition authInvariant (a : AuthState) (now : Z) : Prop :=
  isAuthenticated a = true <->
  truthy (accessToken a) = true
  /\ Date_gt (new_Date (expiresAt a)) (ValidDate now) = true.

(** All three token fields empty, as [/logout] leaves them. *)
Definition cleared (a : AuthState) : Prop :=
  accessToken a = None /\ refreshToken a = None /\ expiresAt a = ExpNull.

(** Sample states and endpoints. *)
Definition staleState : Server :=
  mkServer (mkAuth (Some "access"%string) (Some "refresh"%string) (ExpIso 1000) true)
           (Some "access"%string).

Definition noRefreshTokenState : Server :=
  mkServer (mkAuth (Some "access"%string) None (ExpIso 3600000) true)
           (Some "access"%string).

Definition freshState : Server :=
  mkServer (mkAuth (Some "access"%string) (Some "refresh"%string) (ExpIso 3600000) true)
           (Some "access"%string).

Definition rejectInvalidGrant : TokenEndpoint := fun _ => inr InvalidGrant.

Definition unreachable : TokenEndpoint := fun _ => inr NetworkError.

Definition grantForZeroSeconds : TokenEndpoint :=
  fun _ => inl (mkResponse (Some "new-access"%string) (Some "new-refresh"%string) (Some 0%Z)).

End SessionManager.

(** ** Vocabulary for the walk *)

Module Walk.

(** [n] sides of the average, starting with [side] and changing at each
    step. *)
Fixpoint alternating (side : bool) (n : nat) : list bool :=
  match n with
  | 0 => []
  | S n' => side :: alternating (negb side) n'
  end.

End Walk.

(** ** The life of the token state *)

Module Lifecycle.
Import SessionManager.

(** What the next startup reads after a write of the token file that
    succeeded: [saveTokenData] writes [authState], the logout writes
    [{}], an object without any of the fields. *)
Definition writtenFile (content : option AuthState) : TokenFile :=
  match content with
  | Some a => Parsed a
  | None => Parsed (mkAuth None None ExpUndefined false)
  end.

(** The states the server goes through: the startup load, then any
    sequence of [ensureValidToken], [/callback] and [/logout], whatever
    the token endpoint answers and whatever the clock reads. *)
Inductive reachable : Server -> Prop :=
| reach_startup (file : TokenFile) (now : Z) :
    reachable (loadTokens file now)
| reach_ensureValidToken (post : TokenEndpoint) (now nowAfter : Z)
    (st : Server) :
    reachable st ->
    reachable (snd (fst (ensureValidToken post now nowAfter st)))
| reach_callback (post : TokenEndpoint) (code : string) (nowAfter : Z)
    (st : Server) :
    reachable st ->
    reachable (snd (fst (callback post code nowAfter st)))
| reach_logout (st : Server) :
    reachable st -> reachable (fst (logout st)).

(** A token endpoint that grants an hour. *)
Definition grantForAnHour : TokenEndpoint :=
  fun _ => inl (mkResponse (Some "new-access"%string)
                           (Some "new-refresh"%string) (Some 3600%Z)).

(** A token endpoint that grants an hour and no refresh token. *)
Definition grantWithoutRefreshToken : TokenEndpoint :=
  fun _ => inl (mkResponse (Some "new-access"%string) None (Some 3600%Z)).

End Lifecycle.

(** ** The protected routes *)

Module Routes.
Import JsNum PivotDetector StrategyEngine SessionManager.

(** A candle [[timestamp, open, high, low, close, volume]] of the SDK's
    answer: a date string, given by its time value, and five JSON
    numbers. *)
Record Candle := mkCandle
  { candle_timestamp : Z;
    candle_open : number;
    candle_high : number;
    candle_low : number;
    candle_close : number;
    candle_volume : number }.

(** [parseFloat] of a number: the number is printed and read back, which
    returns it, except that [-0] prints as "0". *)
Definition parseFloat (x : number) : number :=
  if PrimFloat.eqb x 0%float then 0%float else x.

(** [candle => ({timestamp: new Date(candle[0]), price:
    parseFloat(candle[4])})] *)
Definition toDataPoint (candle : Candle) : PricePoint :=
  mkPoint (candle_timestamp candle) (parseFloat (candle_close candle)).

(** [response.data.candles.map(...)] *)
Definition toDataPoints (candles : list Candle) : list PricePoint :=
  map toDataPoint candles.

(** The calls on the SDK client, each with the access token the client
    holds when it is made. *)
Inductive SdkCall :=
| GetHistoricalCandleData (token : option string) (symbol : string)
    (interval from to : option string)
| GetMarketQuoteOHLC (token : option string) (symbol : string)
| PlaceOrder (token : option string) (request : OrderRequest)
| GetPositions (token : option string).

(** The collaborators behind the SDK client; [None] stands for a call
    that throws, or whose answer lacks what the route reads from it.  A
    collaborator answers a request the same way each time it is asked
    within one call of a route. *)
Record Sdk := mkSdk
  { historicalCandles :
      option string -> string ->
      option string -> option string -> option string ->
      option (list Candle);
    lastPrice : option string -> string -> option number;
    orderData : option string -> OrderRequest -> option string;
    positionsData : option string -> option string }.

(** What a route answers: a JSON body, or an error status. *)
Inductive Reply (A : Type) :=
| Json (body : A)
| Status (code : nat).
Arguments Json {A} body.
Arguments Status {A} code.

(** A route behind [requireAuth]: the handler runs, with the token the
    SDK client then holds, when [ensureValidToken] says so; otherwise the
    answer is a 401. *)
Definition protected {A : Type} (post : TokenEndpoint) (now nowAfter : Z)
    (handler : option string -> Reply A * list SdkCall) (st : Server)
    : Reply A * list SdkCall * Server * list Event :=
  let '(isValid, st', events) := requireAuth post now nowAfter st in
  if isValid then
    let '(reply, calls) := handler (sdkAccessToken st') in
    (reply, calls, st', events)
  else (Status 401, [], st', events).

(** One request to a protected route: what the token endpoint would
    answer while it is served, the two clock readings, and the handler
    of the route. *)
Record Hit (A : Type) := mkHit
  { hit_post : TokenEndpoint;
    hit_now : Z;
    hit_nowAfter : Z;
    hit_handler : option string -> Reply A * list SdkCall }.
Arguments mkHit {A} hit_post hit_now hit_nowAfter hit_handler.
Arguments hit_post {A} h.
Arguments hit_now {A} h.
Arguments hit_nowAfter {A} h.
Arguments hit_handler {A} h.

(** Requests to protected routes served one after the other on the
    state they share; each gives its answer, the SDK calls and the
    events of its [requireAuth]. *)
Fixpoint serve {A : Type} (hits : list (Hit A)) (st : Server)
    : list (Reply A * list SdkCall * list Event) * Server :=
  match hits with
  | [] => ([], st)
  | hit :: later =>
      let '(reply, calls, st', events) :=
        protected (hit_post hit) (hit_now hit) (hit_nowAfter hit)
                  (hit_handler hit) st in
      let '(answers, final) := serve later st' in
      ((reply, calls, events) :: answers, final)
  end.

(** [app.get('/positions')] *)
Definition positions (sdk : Sdk) (token : option string)
    : Reply string * list SdkCall :=
  match positionsData sdk token with
  | Some data => (Json data, [GetPositions token])
  | None => (Status 500, [GetPositions token])
  end.

(** The [results] object of [/mcp/calculate], as the list of its
    assignments, the latest first: reading a key finds the latest
    assignment to it.  This is how an object behaves under every key but
    [__proto__], whose assignment sets no property. *)
Definition Results := list (string * option Pivot).

Fixpoint getResult (results : Results) (symbol : string)
    : option (option Pivot) :=
  match results with
  | [] => None
  | (key, mcp) :: earlier =>
      if String.eqb key symbol then Some mcp else getResult earlier symbol
  end.

(** The loop [for (const symbol of symbols)] of [/mcp/calculate]: the
    first call that throws ends it, and the route, in the [catch]. *)
Fixpoint calculateEach (sdk : Sdk) (token : option string)
    (interval from to : option string)
    (symbols : list string) (results : Results)
    : option Results * list SdkCall :=
  match symbols with
  | [] => (Some results, [])
  | symbol :: others =>
      let call := GetHistoricalCandleData token symbol interval from to in
      match historicalCandles sdk token symbol interval from to with
      | Some candles =>
          let results' :=
            (symbol, calculateMCP (toDataPoints candles)) :: results in
          let '(final, calls) :=
            calculateEach sdk token interval from to others results' in
          (final, call :: calls)
      | None => (None, [call])
      end
  end.

(** [app.post('/mcp/calculate')]; [symbols] is [None] when the body has
    no array under that name, [interval], [from] and [to] when it has
    nothing under theirs. *)
Definition mcpCalculate (sdk : Sdk) (symbols : option (list string))
    (interval from to : option string) (token : option string)
    : Reply Results * list SdkCall :=
  match symbols with
  | None | Some [] => (Status 400, [])
  | Some symbols =>
      match calculateEach sdk token interval from to symbols [] with
      | (Some results, calls) => (Json results, calls)
      | (None, calls) => (Status 500, calls)
      end
  end.

(** [app.post('/strategy/mcp')] from the fetch of the candles on.  The
    two date strings are what the route computes from the clock and the
    lookback. *)
Definition strategyRoute (sdk : Sdk) (symbol : string)
    (interval : option string) (fromStr toStr : string)
    (investmentAmount : number) (token : option string)
    : Response * list SdkCall :=
  let fetch :=
    GetHistoricalCandleData token symbol interval (Some fromStr) (Some toStr) in
  match historicalCandles sdk token symbol interval
                          (Some fromStr) (Some toStr) with
  | None => (StrategyFailed500, [fetch])
  | Some candles =>
      let dataPoints := toDataPoints candles in
      match calculateMCP dataPoints with
      | None => (NoMcpFound404, [fetch])
      | Some _ =>
          let quote := GetMarketQuoteOHLC token symbol in
          match lastPrice sdk token symbol with
          | None => (StrategyFailed500, [fetch; quote])
          | Some currentPrice =>
              let '(response, orders) :=
                strategyMcp (orderData sdk token) symbol dataPoints
                            currentPrice investmentAmount in
              (response, [fetch; quote] ++ map (PlaceOrder token) orders)
          end
      end
  end.

(** Sample collaborators: answers that do not depend on the request. *)
Definition sampleCandle (time : Z) (close : number) : Candle :=
  mkCandle time close close close close 1000%float.

Definition sampleCandles : list Candle :=
  [sampleCandle 0 100%float; sampleCandle 1 105%float;
   sampleCandle 2 95%float; sampleCandle 3 102%float;
   sampleCandle 4 100%float; sampleCandle 5 101%float].

Definition sampleSdk : Sdk :=
  mkSdk (fun _ _ _ _ _ => Some sampleCandles)
        (fun _ _ => Some 100.2%float)
        (fun _ _ => Some "order-1"%string)
        (fun _ => Some "positions"%string).

(** An SDK whose candle request fails for one symbol. *)
Definition failingFor (bad : string) : Sdk :=
  mkSdk (fun _ symbol _ _ _ =>
           if String.eqb symbol bad then None else Some sampleCandles)
        (fun _ _ => Some 100.2%float)
        (fun _ _ => Some "order-1"%string)
        (fun _ => Some "positions"%string).

End Routes.

(** ** The command-line clients *)

(** What both clients run on: JSON values, [axios], [readline], and the
    effects of an [async] function, which are the client's flag, the
    world outside it and the requests sent, with [throw] and
    [try]/[catch].  Console output is not modelled. *)
Module ClientRuntime.
Import JsNum.

#[local] Set Warnings "-register-all".

Inductive Json :=
| JNull
| JBool (b : bool)
| JNumber (x : number)
| JString (s : string)
| JArray (items : list Json)
| JObject (fields : list (string * Json)).

(** Truthiness; [JNull] also stands for [undefined]. *)
Definition truthyJson (value : Json) : bool :=
  match value with
  | JNull => false
  | JBool b => b
  | JNumber x => negb (PrimFloat.eqb x 0%float) && PrimFloat.eqb x x
  | JString s => match s with EmptyString => false | String _ _ => true end
  | JArray _ | JObject _ => true
  end.

Fixpoint lookupField (fields : list (string * Json)) (name : string) : Json :=
  match fields with
  | [] => JNull
  | (key, value) :: others =>
      if String.eqb key name then value else lookupField others name
  end.

(** [value.name] on a value that is not [null]. *)
Definition getField (value : Json) (name : string) : Json :=
  match value with
  | JObject fields => lookupField fields name
  | _ => JNull
  end.

(** The [config] handed to [axios]; [data] is [JNull] when the key is
    left out. *)
Record Request := mkRequest
  { method : string; url : string; data : Json }.

(** [axios] resolves with [response.data], or rejects with an error that
    carries [error.response.status] when the server answered. *)
Inductive AxiosOutcome :=
| Resolved (data : Json)
| Rejected (status : option nat).

Definition is401 (status : option nat) : bool :=
  match status with
  | Some code => Nat.eqb code 401
  | None => false
  end.

Section Effects.
Context {World : Type}.
Variable axios : World -> Request -> AxiosOutcome * World.
Variable question : World -> string -> string * World.

(** The client: its [isAuthenticated], the world outside, and the
    requests sent so far, the latest last. *)
Record Client := mkClient
  { isAuthenticated : bool; world : World; sent : list Request }.

(** How a call ends: it returns, it throws an error (given by its
    status), or the evaluation ran out of steps. *)
Inductive Completion (A : Type) :=
| Returns (a : A)
| Throws (status : option nat)
| Unfinished.
Arguments Returns {A} a.
Arguments Throws {A} status.
Arguments Unfinished {A}.

Definition M (A : Type) : Type := Client -> Completion A * Client.

Definition ret {A : Type} (a : A) : M A := fun c => (Returns a, c).

Definition bind {A B : Type} (m : M A) (k : A -> M B) : M B :=
  fun c =>
    match m c with
    | (Returns a, c') => k a c'
    | (Throws status, c') => (Throws status, c')
    | (Unfinished, c') => (Unfinished, c')
    end.

(** [try { body } catch (error) { handler }] *)
Definition tryCatch {A : Type} (body : M A) (handler : option nat -> M A)
    : M A :=
  fun c =>
    match body c with
    | (Throws status, c') => handler status c'
    | other => other
    end.

Definition unfinished {A : Type} : M A := fun c => (Unfinished, c).

Definition getAuthenticated : M bool :=
  fun c => (Returns (isAuthenticated c), c).

Definition setAuthenticated (b : bool) : M unit :=
  fun c => (Returns tt, mkClient b (world c) (sent c)).

(** [await axios(config)] *)
Definition awaitAxios (config : Request) : M Json :=
  fun c =>
    let '(outcome, w) := axios (world c) config in
    let c' := mkClient (isAuthenticated c) w (sent c ++ [config]) in
    match outcome with
    | Resolved data => (Returns data, c')
    | Rejected status => (Throws status, c')
    end.

(** [await promptUser(question)] *)
Definition promptUser (q : string) : M string :=
  fun c =>
    let '(answer, w) := question (world c) q in
    (Returns answer, mkClient (isAuthenticated c) w (sent c)).

End Effects.

Arguments Returns {A} a.
Arguments Throws {A} status.
Arguments Unfinished {A}.
Arguments mkClient {World} isAuthenticated world sent.
Arguments isAuthenticated {World} c.
Arguments world {World} c.
Arguments sent {World} c.
Arguments ret {World A} a c.
Arguments bind {World A B} m k c.
Arguments tryCatch {World A} body handler c.
Arguments unfinished {World A} c.
Arguments getAuthenticated {World} c.
Arguments setAuthenticated {World} b c.

Definition MCP_SERVER_URL : string := "http://localhost:3000".

(** The [config] of [callMCPServer]: [{method, url:
    `${MCP_SERVER_URL}${endpoint}`, ...(data && { data }),
    withCredentials: true}]. *)
Definition requestFor (endpoint method : string) (data : Json) : Request :=
  mkRequest method (MCP_SERVER_URL ++ endpoint)
            (if truthyJson data then data else JNull).

(** A call that does not end by throwing, from any client state. *)
Definition neverThrows {World A : Type} (m : M (World := World) A) : Prop :=
  forall c status c', m c <> (Throws status, c').

End ClientRuntime.

(** The client of [mcp-cursor-integration.js]. *)
Module CursorClient.
Import ClientRuntime.

Section Cursor.
Context {World : Type}.
Variable axios : World -> Request -> AxiosOutcome * World.
Variable question : World -> string -> string * World.

Notation "x <- m ;; k" := (bind m (fun x => k))
  (at level 61, m at next level, right associativity).
Notation "m ;;; k" := (bind m (fun _ => k))
  (at level 61, right associativity).

(** [callMCPServer(endpoint, method = 'GET', data = null)] *)
Definition callMCPServer (endpoint method : string) (data : Json)
    : M (World := World) Json :=
  tryCatch
    (response_data <-
       awaitAxios axios (requestFor endpoint method data) ;;
     ret response_data)
    (fun status =>
       (if is401 status then setAuthenticated false else ret tt) ;;;
       ret JNull).

(** [checkAuthStatus()] *)
Definition checkAuthStatus : M (World := World) bool :=
  tryCatch
    (callMCPServer "/positions" "GET" JNull ;;;
     setAuthenticated true ;;;
     ret true)
    (fun status =>
       if is401 status then setAuthenticated false ;;; ret false
       else ret false).

(** [authenticate()] *)
Definition authenticate : M (World := World) bool :=
  promptUser question
    "Press Enter once you have completed authentication..." ;;;
  tryCatch
    (result <- callMCPServer "/positions" "GET" JNull ;;
     if truthyJson result then setAuthenticated true ;;; ret true
     else ret false)
    (fun _ => ret false).

(** [viewPositions()] *)
Definition viewPositions : M (World := World) unit :=
  authenticated <- getAuthenticated ;;
  if negb authenticated then ret tt
  else callMCPServer "/positions" "GET" JNull ;;; ret tt.

(** [logout()] *)
Definition logout : M (World := World) unit :=
  result <- callMCPServer "/logout" "GET" JNull ;;
  if truthyJson result && truthyJson (getField result "success")
  then setAuthenticated false
  else ret tt.

End Cursor.

End CursorClient.

(** The client of [mcp-claude-integration.js]. *)
Module ClaudeClient.
Import ClientRuntime.

(** The request of [checkAuthStatus]. *)
Definition statusRequest : Request :=
  mkRequest "GET"
    (MCP_SERVER_URL
     ++ "/historical-data/NSE_FO|NIFTY-I/1D?from=2023-01-01&to=2023-01-02")
    JNull.

Section Claude.
Context {World : Type}.
Variable axios : World -> Request -> AxiosOutcome * World.
Variable question : World -> string -> string * World.

Notation "x <- m ;; k" := (bind m (fun x => k))
  (at level 61, m at next level, right associativity).
Notation "m ;;; k" := (bind m (fun _ => k))
  (at level 61, right associativity).

(** [checkAuthStatus()] *)
Definition checkAuthStatus : M (World := World) bool :=
  tryCatch
    (awaitAxios axios statusRequest ;;;
     setAuthenticated true ;;;
     ret true)
    (fun status =>
       if is401 status then setAuthenticated false ;;; ret false
       else ret false).

(** [authenticate()] *)
Definition authenticate : M (World := World) bool :=
  promptUser question
    "Press Enter once you have completed authentication in the browser..." ;;;
  authStatus <- checkAuthStatus ;;
  if authStatus then setAuthenticated true ;;; ret true
  else ret false.

(** [callMCPServer(endpoint, method = 'GET', data = null)]; [depth]
    bounds the nesting of the retries. *)
Fixpoint callMCPServer (depth : nat) (endpoint method : string) (data : Json)
    : M (World := World) Json :=
  match depth with
  | 0 => unfinished
  | S depth' =>
      tryCatch
        (authenticated <- getAuthenticated ;;
         proceed <-
           (if negb authenticated then
              authStatus <- checkAuthStatus ;;
              if negb authStatus then authenticate else ret true
            else ret true) ;;
         if negb proceed then ret JNull
         else
           response_data <-
             awaitAxios axios (requestFor endpoint method data) ;;
           ret response_data)
        (fun status =>
           if is401 status then
             setAuthenticated false ;;;
             authenticated <- authenticate ;;
             if authenticated
             then callMCPServer depth' endpoint method data
             else ret JNull
           else ret JNull)
  end.

End Claude.

(** A server that accepts the status request and answers 401 to every
    other one, and a user who just presses Enter. *)
Definition rejectingAxios (w : unit) (config : Request)
    : AxiosOutcome * unit :=
  if String.eqb (url config) (url statusRequest)
  then (Resolved (JObject []), w)
  else (Rejected (Some 401), w).

(** A server that cannot be reached. *)
Definition deadAxios (w : unit) (config : Request) : AxiosOutcome * unit :=
  (Rejected None, w).

(** A server that answers 401 to everything. *)
Definition unauthorizedAxios (w : unit) (config : Request)
    : AxiosOutcome * unit :=
  (Rejected (Some 401), w).

Definition pressEnter (w : unit) (q : string) : string * unit :=
  (EmptyString, w).

End ClaudeClient.

Import JsNum PivotDetector StrategyEngine SessionManager.
Import Walk.
Import Lifecycle Routes.

(** * Properties *)

(** ** Comparisons of numbers *)

Section NumberFacts.

Lemma compare_cont_swap (p q : positive) :
  Pos.compare_cont Eq q p = CompOpp (Pos.compare_cont Eq p q).
Proof. now rewrite (Pos.compare_cont_antisym p q Eq). Qed.

Lemma SFcompare_swap (x y : spec_float) (c : comparison) :
  SFcompare x y = Some c -> SFcompare y x = Some (CompOpp c).
Proof.
  destruct x as [sx | sx | | sx mx ex], y as [sy | sy | | sy my ey];
    simpl; try discriminate;
    try (destruct sx); try (destruct sy);
    intros H; injection H as <-; try reflexivity;
    rewrite (Z.compare_antisym ex ey), (compare_cont_swap mx my);
    destruct (ex ?= ey)%Z; simpl; try reflexivity.
Qed.

(** [a > b] excludes [a <= b]. *)
Lemma gt_not_le (a b : number) : gt a b = true -> le a b = false.
Proof.
  unfold gt, le. rewrite ltb_spec, leb_spec. unfold SFltb, SFleb.
  destruct (SFcompare (Prim2SF b) (Prim2SF a)) as [c |] eqn:E;
    try discriminate.
  rewrite (SFcompare_swap _ _ _ E). now destruct c.
Qed.

(** [a == b] excludes [a > b]. *)
Lemma eqb_not_gt (a b : number) :
  PrimFloat.eqb a b = true -> gt a b = false.
Proof.
  unfold gt. rewrite eqb_spec, ltb_spec. unfold SFeqb, SFltb.
  destruct (SFcompare (Prim2SF a) (Prim2SF b)) as [c |] eqn:E;
    try discriminate.
  rewrite (SFcompare_swap _ _ _ E). now destruct c.
Qed.

(** The relative distance of a price to itself passes a positive
    tolerance exactly when the price is finite and not a zero:
    [0 / 0] and [Infinity - Infinity] are NaN. *)
Lemma self_distance (p tol : number) :
  gt tol 0%float = true ->
  le (Math_abs (p - p) / p)%float tol = finite_nonzero p.
Proof.
  unfold gt, le, Math_abs, finite_nonzero.
  rewrite ltb_spec, leb_spec, div_spec, abs_spec, sub_spec.
  change (Prim2SF 0%float) with (S754_zero false).
  destruct (Prim2SF tol) as [st | st | | st mt et];
    try discriminate;
    destruct (Prim2SF p) as [s | s | | s m e];
    try (destruct st); try discriminate;
    try (destruct s); try reflexivity; intros _;
    unfold SF64sub, SFsub, SF64div;
    rewrite Z.min_id; unfold shl_align; rewrite Z.sub_diag; simpl fst;
    rewrite ?Z.sub_diag; reflexivity.
Qed.

End NumberFacts.

(** ** The stable sort and its first element *)

Section SortFacts.

Context {A : Type} (cmp : A -> A -> Z).

Lemma insertSorted_In (x y : A) (l : list A) :
  In y (insertSorted cmp x l) <-> y = x \/ In y l.
Proof.
  induction l as [| z l IH]; simpl.
  - intuition congruence.
  - destruct (cmp x z <=? 0)%Z; simpl; [intuition congruence |].
    rewrite IH. intuition congruence.
Qed.

Lemma sort_In (y : A) (l : list A) : In y (sort cmp l) <-> In y l.
Proof.
  induction l as [| x l IH]; simpl; [tauto |].
  rewrite insertSorted_In, IH. intuition congruence.
Qed.

Lemma sort_length (l : list A) : length (sort cmp l) = length l.
Proof.
  assert (Hins : forall x s, length (insertSorted cmp x s) = S (length s)).
  { intros x s. induction s as [| z s IH]; simpl; [reflexivity |].
    destruct (cmp x z <=? 0)%Z; simpl; [reflexivity | now rewrite IH]. }
  induction l as [| x l IH]; simpl; [reflexivity |].
  now rewrite Hins, IH.
Qed.

End SortFacts.

(** The head of the array sorted by connection count: everything before
    it in the original order has strictly fewer connections, nothing
    after it has more. *)
Lemma sort_head_first_max (l : list Pivot) :
  match sort byConnectionsDesc l with
  | [] => l = []
  | best :: _ =>
      exists before after,
        l = before ++ best :: after
        /\ Forall (fun c => connections c < connections best) before
        /\ Forall (fun c => connections c <= connections best) after
  end.
Proof.
  induction l as [| x l IH]; simpl; [reflexivity |].
  destruct (sort byConnectionsDesc l) as [| y s] eqn:Hs; simpl.
  - subst l. exists [], []. repeat split; constructor.
  - destruct IH as (before & after & Hl & Hb & Ha).
    unfold byConnectionsDesc at 1.
    destruct (Z.leb_spec (Z.of_nat (connections y) - Z.of_nat (connections x)) 0)
      as [Hle | Hgt].
    + exists [], l. repeat split; [constructor |].
      subst l. apply Forall_app. split.
      * eapply Forall_impl; [| exact Hb]. simpl. lia.
      * constructor; [lia |]. eapply Forall_impl; [| exact Ha]. simpl. lia.
    + exists (x :: before), after. subst l. repeat split; [| exact Ha].
      constructor; [lia | exact Hb].
Qed.

(** ** The walk and the connection counts *)

Lemma countConnections_filter (dataPoints : list PricePoint) (pivot : PricePoint) :
  countConnections dataPoints pivot
  = length (filter (connected pivot) dataPoints).
Proof.
  unfold countConnections.
  enough (H : forall n,
             fold_left
               (fun connectionCount point =>
                  if connected pivot point then S connectionCount
                  else connectionCount) dataPoints n
             = n + length (filter (connected pivot) dataPoints))
    by apply (H 0).
  induction dataPoints as [| pt l IH]; intros n; simpl; [lia |].
  rewrite IH. destruct (connected pivot pt); simpl; lia.
Qed.

Lemma crossovers_nil (avg : number) (aboveAvg : bool) (rest : list PricePoint) :
  crossovers avg aboveAvg rest = []
  <-> Forall (fun pt => gt (price pt) avg = aboveAvg) rest.
Proof.
  induction rest as [| pt rest IH]; simpl.
  - split; [constructor | reflexivity].
  - destruct (Bool.eqb (gt (price pt) avg) aboveAvg) eqn:E.
    + apply eqb_prop in E. rewrite IH. split.
      * now constructor.
      * intros H. now inversion H.
    + apply eqb_false_iff in E. split; [discriminate |].
      intros H. inversion H. contradiction.
Qed.

Lemma crossovers_come_from (avg : number) (rest : list PricePoint) :
  forall aboveAvg c,
    In c (crossovers avg aboveAvg rest) ->
    exists i pt,
      nth_error rest i = Some pt
      /\ timestamp c = timestamp pt /\ price c = price pt.
Proof.
  induction rest as [| pt rest IH]; intros aboveAvg c; simpl; [tauto |].
  destruct (Bool.eqb (gt (price pt) avg) aboveAvg).
  - intros H. destruct (IH _ _ H) as (i & q & Hi & Hq).
    exists (S i), q. now split.
  - intros [<- | H].
    + exists 0, pt. simpl. auto.
    + destruct (IH _ _ H) as (i & q & Hi & Hq).
      exists (S i), q. now split.
Qed.

(** What [calculateMCP] returns is one of the candidates, with its count. *)
Lemma calculateMCP_In (dataPoints : list PricePoint) (best : Pivot) :
  calculateMCP dataPoints = Some best ->
  exists pivot,
    In pivot (pivotPoints dataPoints)
    /\ best = mkPivot (timestamp pivot) (price pivot)
                      (countConnections dataPoints pivot).
Proof.
  unfold calculateMCP. destruct dataPoints as [| first rest]; [discriminate |].
  set (dps := first :: rest).
  destruct (sort byConnectionsDesc (withConnections dps (pivotPoints dps)))
    as [| b s] eqn:Hs; [discriminate |].
  intros H. injection H as <-.
  assert (Hin : In b (withConnections dps (pivotPoints dps))).
  { apply (sort_In byConnectionsDesc). rewrite Hs. now left. }
  unfold withConnections in Hin. apply in_map_iff in Hin.
  destruct Hin as (pivot & Hb & Hp). exists pivot. now split.
Qed.

(** [calculateMCP] answers [null] exactly when the walk pushed nothing. *)
Lemma calculateMCP_none (dataPoints : list PricePoint) :
  calculateMCP dataPoints = None <-> pivotPoints dataPoints = [].
Proof.
  destruct dataPoints as [| first rest]; [simpl; tauto |].
  unfold calculateMCP. set (dps := first :: rest).
  pose proof (sort_length byConnectionsDesc
                (withConnections dps (pivotPoints dps))) as Hlen.
  unfold withConnections in Hlen at 2. rewrite length_map in Hlen.
  destruct (sort byConnectionsDesc (withConnections dps (pivotPoints dps)));
    destruct (pivotPoints dps); simpl in Hlen;
    try discriminate; split; congruence.
Qed.

(** ** PivotDetector *)

(** C1. For a non-empty series [calculateMCP] returns a candidate whose
    connection count no candidate exceeds and which every earlier
    candidate of the walk stays strictly below (so among candidates of
    the maximal count it is the first), and it returns none exactly when
    the walk produced no candidate. *)
Theorem calculateMCP_first_most_connected (dataPoints : list PricePoint) :
  dataPoints <> [] ->
  (calculateMCP dataPoints = None <-> pivotPoints dataPoints = [])
  /\ forall best,
       calculateMCP dataPoints = Some best ->
       exists i,
         nth_error (candidates dataPoints) i = Some best
         /\ (forall c, In c (candidates dataPoints) ->
                       connections c <= connections best)
         /\ (forall j c, j < i ->
                         nth_error (candidates dataPoints) j = Some c ->
                         connections c < connections best).
Proof.
  intros Hne. destruct dataPoints as [| first rest]; [congruence |].
  unfold calculateMCP, candidates.
  set (dps := first :: rest).
  set (l := withConnections dps (pivotPoints dps)).
  pose proof (sort_head_first_max l) as Hhead.
  split; [apply (calculateMCP_none dps) |].
  destruct (sort byConnectionsDesc l) as [| b s] eqn:Hs; [discriminate |].
  destruct Hhead as (before & after & Hl & Hb & Ha).
  intros best H. injection H as <-.
  rewrite Forall_forall in Hb, Ha.
  exists (length before). rewrite Hl. repeat split.
  - rewrite nth_error_app2, Nat.sub_diag by lia. reflexivity.
  - intros c Hin. apply in_app_or in Hin.
    destruct Hin as [Hin | [<- | Hin]];
      [apply Nat.lt_le_incl; auto | lia | auto].
  - intros j c Hj Hnth. rewrite nth_error_app1 in Hnth by exact Hj.
    apply Hb. eapply nth_error_In; eauto.
Qed.

Lemma calculateMCP_first_most_connected_witness :
  zigzag <> []
  /\ exists i,
       nth_error (candidates zigzag) i = Some (mkPivot 1 3%float 3)
       /\ (forall c, In c (candidates zigzag) -> connections c <= 3)
       /\ (forall j c, j < i ->
                       nth_error (candidates zigzag) j = Some c ->
                       connections c < 3).
Proof.
  assert (Hne : zigzag <> []) by discriminate.
  split; [exact Hne |].
  exact (proj2 (calculateMCP_first_most_connected zigzag Hne)
               (mkPivot 1 3%float 3) eq_refl).
Defined.

(** C7. The connection count of every candidate is the number of points
    of the whole series whose relative distance to the candidate's price,
    [|candidate.price - point.price| / candidate.price], is at most
    0.001. *)
Theorem connections_count_points_within_tolerance
    (dataPoints : list PricePoint) (c : Pivot) :
  In c (candidates dataPoints) ->
  connections c
  = length
      (filter
         (fun point =>
            le (Math_abs (pivot_price c - price point) / pivot_price c)%float
               0.001%float)
         dataPoints).
Proof.
  unfold candidates, withConnections. intros Hin.
  apply in_map_iff in Hin. destruct Hin as (pivot & <- & _). simpl.
  apply countConnections_filter.
Qed.

Lemma connections_count_points_within_tolerance_witness :
  In (mkPivot 4 100%float 2) (candidates sixPoints)
  /\ 2 = length
           (filter
              (fun point => le (Math_abs (100 - price point) / 100)%float
                               0.001%float)
              sixPoints).
Proof.
  assert (Hin : In (mkPivot 4 100%float 2) (candidates sixPoints)).
  { vm_compute. do 3 right. left. reflexivity. }
  split; [exact Hin |].
  exact (connections_count_points_within_tolerance sixPoints _ Hin).
Defined.

(** C4, as the code has it.  [calculateMCP] returns none exactly on the
    series that never cross their average; strict monotonicity does not
    make a series one of them. *)
Theorem calculateMCP_none_iff_no_crossover (dataPoints : list PricePoint) :
  calculateMCP dataPoints = None <-> noCrossover dataPoints.
Proof.
  destruct dataPoints as [| first rest]; [simpl; tauto |].
  rewrite calculateMCP_none.
  unfold pivotPoints, noCrossover. apply crossovers_nil.
Qed.

(** C4, as stated, fails: 1, 2, 3 is strictly increasing, its average 2
    is crossed at the third point, which is returned. *)
Lemma strictly_increasing_series_has_pivot :
  strictlyMonotonic rising = true
  /\ calculateMCP rising = Some (mkPivot 2 3%float 1).
Proof. split; reflexivity. Qed.

(** C10, as the code has it.  A returned pivot carries the timestamp and
    price of a data point at an index from 1 on, and it has at least one
    connection whenever its price is finite and not zero. *)
Theorem calculateMCP_pivot_is_later_point
    (dataPoints : list PricePoint) (best : Pivot) :
  calculateMCP dataPoints = Some best ->
  (exists i point,
      1 <= i
      /\ nth_error dataPoints i = Some point
      /\ pivot_timestamp best = timestamp point
      /\ pivot_price best = price point)
  /\ (finite_nonzero (pivot_price best) = true -> 1 <= connections best).
Proof.
  intros H. destruct (calculateMCP_In _ _ H) as (pivot & Hin & ->). simpl.
  destruct dataPoints as [| first rest]; [contradiction |].
  unfold pivotPoints in Hin.
  destruct (crossovers_come_from _ _ _ _ Hin) as (i & pt & Hi & Hts & Hpr).
  split.
  - exists (S i), pt. repeat split; [lia | exact Hi | exact Hts | exact Hpr].
  - intros Hfin. rewrite countConnections_filter.
    assert (Hpt : In pt (filter (connected pivot) (first :: rest))).
    { apply filter_In. split.
      - right. eapply nth_error_In; eauto.
      - unfold connected. rewrite <- Hpr. rewrite self_distance; auto. }
    destruct (filter (connected pivot) (first :: rest));
      [contradiction | simpl; lia].
Qed.

Lemma calculateMCP_pivot_is_later_point_witness :
  calculateMCP rising = Some (mkPivot 2 3%float 1)
  /\ (exists i point,
         1 <= i
         /\ nth_error rising i = Some point
         /\ 2%Z = timestamp point /\ 3%float = price point)
  /\ (finite_nonzero 3%float = true -> 1 <= 1).
Proof.
  split; [reflexivity |].
  exact (calculateMCP_pivot_is_later_point rising
           (mkPivot 2 3%float 1) eq_refl).
Defined.

(** C10, as stated, fails: in the series 1, 0 the second point crosses
    the average 0.5 and is returned; its price is 0, every relative
    distance to it is a division by zero, and it has no connection. *)
Lemma zero_price_pivot_has_no_connection :
  calculateMCP fallingToZero = Some (mkPivot 1 0%float 0)
  /\ ~ 1 <= connections (mkPivot 1 0%float 0).
Proof. split; [reflexivity | simpl; lia]. Qed.

(** ** StrategyEngine *)

(** C2, as the code has it.  With [deviation = |currentPrice - mcp.price|
    / mcp.price]: when [deviation <= 0.005] the action is BUY if the
    current price is strictly above the mean of the last ten points and
    SELL otherwise, the order price is the current price, and the order
    sent carries the quantity [floor(investmentAmount / currentPrice)];
    in every other case, [deviation > 0.005] among them, the answer is
    HOLD and no order is built. *)
Theorem strategy_decision_by_deviation
    (placeOrder : OrderRequest -> option string) (symbol : string)
    (dataPoints : list PricePoint) (mcp : Pivot)
    (currentPrice investmentAmount : number) :
  calculateMCP dataPoints = Some mcp ->
  let deviation :=
    (Math_abs (currentPrice - pivot_price mcp) / pivot_price mcp)%float in
  let run := strategyMcp placeOrder symbol dataPoints currentPrice
                         investmentAmount in
  (gt deviation 0.005%float = true -> le deviation 0.005%float = false)
  /\ (le deviation 0.005%float = false ->
      decide dataPoints mcp currentPrice = mkDecision None None
      /\ run = (Hold mcp currentPrice (deviation * 100)%float
                     (connections mcp), []))
  /\ (le deviation 0.005%float = true ->
      let side :=
        if gt currentPrice (avgRecentPrice dataPoints) then BUY else SELL in
      let quantity := Math_floor (investmentAmount / currentPrice)%float in
      decide dataPoints mcp currentPrice
      = mkDecision (Some side) (Some currentPrice)
      /\ (gt quantity 0%float = true ->
          snd run = [mkOrder symbol quantity side "LIMIT" (Some currentPrice)
                             "DAY" 0%float None false])
      /\ forall req, In req (snd run) ->
           order_side req = side
           /\ order_price req = Some currentPrice
           /\ order_quantity req = quantity).
Proof.
  intros Hmcp deviation run. split; [apply gt_not_le |].
  subst run. unfold strategyMcp. rewrite Hmcp.
  unfold decide, mcpDeviation, quantityFor. fold deviation.
  split; intros Hle; rewrite Hle; simpl.
  - split; reflexivity.
  - split; [reflexivity |].
    set (side := if gt currentPrice (avgRecentPrice dataPoints)
                 then BUY else SELL).
    set (quantity := Math_floor (investmentAmount / currentPrice)%float).
    set (req0 := mkOrder symbol quantity side "LIMIT" (Some currentPrice)
                         "DAY" 0%float None false).
    destruct (gt quantity 0%float) eqn:Hq.
    + assert (Hsnd : snd (match placeOrder req0 with
                          | Some data =>
                              (OrderPlaced side data mcp currentPrice
                                 (deviation * 100)%float (connections mcp),
                               [req0])
                          | None => (StrategyFailed500, [req0])
                          end) = [req0])
        by (destruct (placeOrder req0); reflexivity).
      rewrite Hsnd. split; [reflexivity |].
      intros req [<- | []]. repeat split.
    + split; [discriminate |]. intros req [].
Qed.

Lemma strategy_decision_by_deviation_witness :
  calculateMCP sixPoints = Some (mkPivot 4 100%float 2)
  /\ decide sixPoints (mkPivot 4 100%float 2) 100.2%float
     = mkDecision (Some SELL) (Some 100.2%float)
  /\ snd (strategyMcp acceptOrder "NSE_EQ|INE848E01016" sixPoints
                      100.2%float 1000%float)
     = [mkOrder "NSE_EQ|INE848E01016" 9%float SELL "LIMIT"
                (Some 100.2%float) "DAY" 0%float None false].
Proof.
  split; [reflexivity |].
  pose proof (strategy_decision_by_deviation acceptOrder
                "NSE_EQ|INE848E01016" sixPoints (mkPivot 4 100%float 2)
                100.2%float 1000%float eq_refl) as H.
  destruct H as (_ & _ & H). destruct (H eq_refl) as (Hd & Hs & _).
  split; [exact Hd | exact (Hs eq_refl)].
Defined.

(** C2, as stated, fails where the deviation is not a number: with a
    pivot price of 0 and a current price of 0 the deviation is [0 / 0],
    which is not greater than 0.005, and the answer is HOLD all the
    same. *)
Lemma nan_deviation_is_hold :
  calculateMCP fallingToZero = Some (mkPivot 1 0%float 0)
  /\ gt (mcpDeviation 0%float (mkPivot 1 0%float 0)) 0.005%float = false
  /\ action (decide fallingToZero (mkPivot 1 0%float 0) 0%float) = None
  /\ strategyMcp acceptOrder "NSE_EQ|INE848E01016" fallingToZero
                 0%float 1000%float
     = (Hold (mkPivot 1 0%float 0) 0%float
             (mcpDeviation 0%float (mkPivot 1 0%float 0) * 100)%float 0, []).
Proof. repeat split. Qed.

(** C8. When an action was chosen and [floor(investmentAmount /
    currentPrice)] is zero, the route answers with the 400 "Investment
    amount too small for minimum quantity" and sends no order; and no
    order it ever sends has a zero quantity. *)
Theorem zero_quantity_order_is_rejected
    (placeOrder : OrderRequest -> option string) (symbol : string)
    (dataPoints : list PricePoint) (currentPrice investmentAmount : number) :
  let run := strategyMcp placeOrder symbol dataPoints currentPrice
                         investmentAmount in
  (forall mcp side,
      calculateMCP dataPoints = Some mcp ->
      action (decide dataPoints mcp currentPrice) = Some side ->
      PrimFloat.eqb (Math_floor (investmentAmount / currentPrice)%float)
                    0%float = true ->
      run = (AmountTooSmall400, []))
  /\ (forall req, In req (snd run) ->
        PrimFloat.eqb (order_quantity req) 0%float = false
        /\ gt (order_quantity req) 0%float = true).
Proof.
  intros run. subst run. unfold strategyMcp, quantityFor. split.
  - intros mcp side Hmcp Hact Hzero. rewrite Hmcp, Hact.
    now rewrite (eqb_not_gt _ _ Hzero).
  - intros req. destruct (calculateMCP dataPoints) as [mcp |]; [| intros []].
    destruct (action (decide dataPoints mcp currentPrice)) as [side |];
      [| intros []].
    destruct (gt (Math_floor (investmentAmount / currentPrice)%float) 0%float)
      eqn:Hq; [| intros []].
    set (req0 := mkOrder _ _ _ _ _ _ _ _ _).
    assert (Hin : In req (snd (match placeOrder req0 with
                               | Some data =>
                                   (OrderPlaced side data mcp currentPrice
                                      (mcpDeviation currentPrice mcp * 100)%float
                                      (connections mcp), [req0])
                               | None => (StrategyFailed500, [req0])
                               end)) -> req = req0).
    { destruct (placeOrder req0); intros [<- | []]; reflexivity. }
    intros H. rewrite (Hin H). simpl. split; [| exact Hq].
    destruct (PrimFloat.eqb _ 0%float) eqn:E; [| reflexivity].
    apply eqb_not_gt in E. congruence.
Qed.

(** The case of C8 occurs: 50 does not buy one unit at 100.2. *)
Example small_investment_is_rejected :
  action (decide sixPoints (mkPivot 4 100%float 2) 100.2%float) = Some SELL
  /\ Math_floor (50 / 100.2)%float = 0%float
  /\ strategyMcp acceptOrder "NSE_EQ|INE848E01016" sixPoints
                 100.2%float 50%float
     = (AmountTooSmall400, []).
Proof. repeat split. Qed.

(** ** SessionManager *)

(** A refresh is attempted only past both guards, and then with the
    stored refresh token. *)
Lemma ensureValidToken_posts (post : TokenEndpoint) (now nowAfter : Z)
    (st : Server) :
  existsb isPost (snd (ensureValidToken post now nowAfter st)) = true ->
  truthy (refreshToken (authState st)) = true
  /\ truthyExp (expiresAt (authState st)) = true
  /\ Date_gt (new_Date (expiresAt (authState st)))
             (ValidDate (now + 5 * 60 * 1000)) = false.
Proof.
  unfold ensureValidToken.
  destruct (truthy (refreshToken (authState st)));
    destruct (truthyExp (expiresAt (authState st)));
    simpl; try discriminate.
  destruct (Date_gt _ _); simpl; [discriminate | auto].
Qed.

(** Past both guards, a rejected exchange changes nothing. *)
Lemma ensureValidToken_rejected (post : TokenEndpoint) (now nowAfter : Z)
    (st : Server) (err : TokenError) :
  truthy (refreshToken (authState st)) = true ->
  truthyExp (expiresAt (authState st)) = true ->
  Date_gt (new_Date (expiresAt (authState st)))
          (ValidDate (now + 5 * 60 * 1000)) = false ->
  post (RefreshTokenGrant (refreshToken (authState st))) = inr err ->
  ensureValidToken post now nowAfter st
  = (false, st,
     [PostToken (RefreshTokenGrant (refreshToken (authState st)));
      ConsoleError]).
Proof.
  intros Hr He Hd Hp. unfold ensureValidToken.
  now rewrite Hr, He, Hd, Hp.
Qed.

(** An expiry that is not five minutes away at one clock reading is not
    at a later one either. *)
Lemma Date_gt_later (d : Date) (now later : Z) :
  (now <= later)%Z ->
  Date_gt d (ValidDate (now + 5 * 60 * 1000)) = false ->
  Date_gt d (ValidDate (later + 5 * 60 * 1000)) = false.
Proof.
  destruct d as [t |]; simpl; [| reflexivity].
  rewrite !Z.ltb_ge. lia.
Qed.

(** The state a token response leaves is flagged authenticated; it
    satisfies the invariant at the clock reading of the response exactly
    when the response carries a non-empty access token and a positive
    lifetime. *)
Lemma stateFromResponse_invariant (now : Z) (r : TokenResponse)
    (a : AuthState) :
  stateFromResponse now r = Some a ->
  isAuthenticated a = true
  /\ (authInvariant a now <->
      truthy (access_token r) = true
      /\ exists seconds, expires_in r = Some seconds /\ (0 < seconds)%Z).
Proof.
  unfold stateFromResponse, authInvariant.
  destruct (expires_in r) as [seconds |]; [| discriminate].
  intros H. injection H as <-. simpl. split; [reflexivity |].
  rewrite Z.ltb_lt. split.
  - intros [Hinv _]. destruct (Hinv eq_refl) as [Ha Ht].
    split; [exact Ha |]. exists seconds. split; [reflexivity | lia].
  - intros (Ha & s & Hs & Hpos). injection Hs as <-.
    split; [intros _; split; [exact Ha | lia] | reflexivity].
Qed.

(** C3. When the refresh-token exchange is attempted and fails,
    [ensureValidToken] returns false and the state, with its access
    token, refresh token and expiry, is what it was. *)
Theorem failed_refresh_leaves_state (post : TokenEndpoint)
    (now nowAfter : Z) (st : Server) (err : TokenError) :
  existsb isPost (snd (ensureValidToken post now nowAfter st)) = true ->
  post (RefreshTokenGrant (refreshToken (authState st))) = inr err ->
  let '(ok, st', _) := ensureValidToken post now nowAfter st in
  ok = false
  /\ st' = st
  /\ accessToken (authState st') = accessToken (authState st)
  /\ refreshToken (authState st') = refreshToken (authState st)
  /\ expiresAt (authState st') = expiresAt (authState st).
Proof.
  intros Hposts Hfail.
  destruct (ensureValidToken_posts _ _ _ _ Hposts) as (Hr & He & Hd).
  rewrite (ensureValidToken_rejected _ _ _ _ _ Hr He Hd Hfail).
  repeat split.
Qed.

Lemma failed_refresh_leaves_state_witness :
  existsb isPost (snd (ensureValidToken unreachable 2000 2000 staleState))
  = true
  /\ unreachable (RefreshTokenGrant (refreshToken (authState staleState)))
     = inr NetworkError
  /\ let '(ok, st', _) := ensureValidToken unreachable 2000 2000 staleState in
     ok = false
     /\ st' = staleState
     /\ accessToken (authState st') = accessToken (authState staleState)
     /\ refreshToken (authState st') = refreshToken (authState staleState)
     /\ expiresAt (authState st') = expiresAt (authState staleState).
Proof.
  split; [reflexivity |]. split; [reflexivity |].
  exact (failed_refresh_leaves_state unreachable 2000 2000 staleState
           NetworkError eq_refl eq_refl).
Defined.

(** C5, as the code has it.  With a refresh token and an expiry on
    record, the expiry more than five minutes after the clock reading,
    [ensureValidToken] returns true, posts nothing and changes nothing. *)
Theorem valid_token_needs_no_refresh (post : TokenEndpoint)
    (now nowAfter : Z) (st : Server) :
  truthy (refreshToken (authState st)) = true ->
  truthyExp (expiresAt (authState st)) = true ->
  Date_gt (new_Date (expiresAt (authState st)))
          (ValidDate (now + 5 * 60 * 1000)) = true ->
  ensureValidToken post now nowAfter st = (true, st, [])
  /\ existsb isPost (snd (ensureValidToken post now nowAfter st)) = false.
Proof.
  intros Hr He Hd. unfold ensureValidToken.
  rewrite Hr, He, Hd. split; reflexivity.
Qed.

Lemma valid_token_needs_no_refresh_witness :
  truthy (refreshToken (authState freshState)) = true
  /\ truthyExp (expiresAt (authState freshState)) = true
  /\ Date_gt (new_Date (expiresAt (authState freshState)))
             (ValidDate (2000 + 5 * 60 * 1000)) = true
  /\ ensureValidToken unreachable 2000 2000 freshState
     = (true, freshState, [])
  /\ existsb isPost (snd (ensureValidToken unreachable 2000 2000 freshState))
     = false.
Proof.
  split; [reflexivity |]. split; [reflexivity |]. split; [reflexivity |].
  exact (valid_token_needs_no_refresh unreachable 2000 2000 freshState
           eq_refl eq_refl eq_refl).
Defined.

(** C5, as stated, fails: an access token that expires in an hour, held
    without a refresh token, is turned down by the first guard. *)
Lemma valid_token_without_refresh_token_is_refused :
  Date_gt (new_Date (expiresAt (authState noRefreshTokenState)))
          (ValidDate (2000 + 5 * 60 * 1000)) = true
  /\ ensureValidToken unreachable 2000 2000 noRefreshTokenState
     = (false, noRefreshTokenState, []).
Proof. split; reflexivity. Qed.

(** C6, as the code has it.  When the authorization server rejects the
    stored refresh token as permanently invalid, [ensureValidToken]
    returns false and keeps the state as it was, tokens included; every
    later call in that state posts the same refresh request again. *)
Theorem rejected_refresh_token_is_kept_and_retried (post : TokenEndpoint)
    (now nowAfter : Z) (st : Server) :
  existsb isPost (snd (ensureValidToken post now nowAfter st)) = true ->
  post (RefreshTokenGrant (refreshToken (authState st))) = inr InvalidGrant ->
  ensureValidToken post now nowAfter st
  = (false, st,
     [PostToken (RefreshTokenGrant (refreshToken (authState st)));
      ConsoleError])
  /\ ~ cleared (authState st)
  /\ forall later laterAfter,
       (now <= later)%Z ->
       ensureValidToken post later laterAfter st
       = (false, st,
          [PostToken (RefreshTokenGrant (refreshToken (authState st)));
           ConsoleError]).
Proof.
  intros Hposts Hfail.
  destruct (ensureValidToken_posts _ _ _ _ Hposts) as (Hr & He & Hd).
  split; [| split].
  - now apply ensureValidToken_rejected with (err := InvalidGrant).
  - intros (_ & Hnone & _). rewrite Hnone in Hr. discriminate.
  - intros later laterAfter Hle.
    apply ensureValidToken_rejected with (err := InvalidGrant); auto.
    eapply Date_gt_later; eauto.
Qed.

Lemma rejected_refresh_token_is_kept_and_retried_witness :
  existsb isPost
    (snd (ensureValidToken rejectInvalidGrant 2000 2000 staleState)) = true
  /\ rejectInvalidGrant
       (RefreshTokenGrant (refreshToken (authState staleState)))
     = inr InvalidGrant
  /\ ensureValidToken rejectInvalidGrant 3000 3000 staleState
     = (false, staleState,
        [PostToken (RefreshTokenGrant (refreshToken (authState staleState)));
         ConsoleError]).
Proof.
  split; [reflexivity |]. split; [reflexivity |].
  refine (proj2 (proj2 (rejected_refresh_token_is_kept_and_retried
                          rejectInvalidGrant 2000 2000 staleState
                          eq_refl eq_refl)) 3000%Z 3000%Z _).
  discriminate.
Defined.

(** C6, as stated, fails: after a rejection with [invalid_grant] the
    state still holds its tokens and its flag, and the next call posts
    to the token endpoint again. *)
Lemma invalid_grant_does_not_clear_tokens :
  ensureValidToken rejectInvalidGrant 2000 2000 staleState
  = (false, staleState,
     [PostToken (RefreshTokenGrant (Some "refresh"%string)); ConsoleError])
  /\ ~ cleared (authState staleState)
  /\ isAuthenticated (authState staleState) = true
  /\ existsb isPost
       (snd (ensureValidToken rejectInvalidGrant 3000 3000 staleState))
     = true.
Proof.
  split; [reflexivity |]. split; [| split; reflexivity].
  intros (H & _). discriminate H.
Qed.

(** C9, as the code has it.  The startup load and the logout leave a
    state that satisfies the invariant at their clock reading.  A
    successful code exchange or refresh leaves the flag set with the
    tokens and expiry of the response, which satisfies the invariant
    exactly when the response carries a non-empty access token and a
    positive lifetime.  Every other outcome of [ensureValidToken] and of
    the code exchange leaves the state, flag included, as it was. *)
Theorem token_operations_and_invariant :
  (forall file now, authInvariant (authState (loadTokens file now)) now)
  /\ (forall st now, authInvariant (authState (fst (logout st))) now)
  /\ (forall post code nowAfter st,
        let '(ok, st', _) := callback post code nowAfter st in
        if ok then
          exists r,
            post (AuthorizationCodeGrant code) = inl r
            /\ isAuthenticated (authState st') = true
            /\ (authInvariant (authState st') nowAfter <->
                truthy (access_token r) = true
                /\ exists seconds,
                     expires_in r = Some seconds /\ (0 < seconds)%Z)
        else st' = st)
  /\ (forall post now nowAfter st,
        let '(ok, st', events) := ensureValidToken post now nowAfter st in
        if ok && existsb isPost events then
          exists r,
            post (RefreshTokenGrant (refreshToken (authState st))) = inl r
            /\ isAuthenticated (authState st') = true
            /\ (authInvariant (authState st') nowAfter <->
                truthy (access_token r) = true
                /\ exists seconds,
                     expires_in r = Some seconds /\ (0 < seconds)%Z)
        else st' = st).
Proof.
  split; [| split; [| split]].
  - intros [| | tokenData] now; unfold authInvariant; simpl;
      try (split; [discriminate | intros [H _]; discriminate H]).
    rewrite andb_true_iff. tauto.
  - intros st now. unfold authInvariant. simpl.
    split; [discriminate | intros [H _]; discriminate H].
  - intros post code nowAfter st. unfold callback.
    destruct (nonEmpty code); simpl; [| reflexivity].
    destruct (post (AuthorizationCodeGrant code)) as [r | err];
      [| reflexivity].
    destruct (stateFromResponse nowAfter r) as [a |] eqn:Ha; [| reflexivity].
    exists r. split; [reflexivity |]. simpl.
    now apply stateFromResponse_invariant.
  - intros post now nowAfter st. unfold ensureValidToken.
    destruct (truthy (refreshToken (authState st))); simpl; [| reflexivity].
    destruct (truthyExp (expiresAt (authState st))); simpl; [| reflexivity].
    destruct (Date_gt _ _); simpl; [reflexivity |].
    destruct (post (RefreshTokenGrant (refreshToken (authState st))))
      as [r | err]; [| reflexivity].
    destruct (stateFromResponse nowAfter r) as [a |] eqn:Ha; [| reflexivity].
    simpl. exists r. split; [reflexivity |].
    now apply stateFromResponse_invariant.
Qed.

(** C9, as stated, fails.  A state whose token was valid at clock
    reading 0 goes through a failed refresh at reading 2000, after its
    expiry: the flag is still set, the expiry is past.  And a code
    exchange answered with a lifetime of zero seconds sets the flag on a
    token that is already expired. *)
Lemma failed_refresh_breaks_invariant :
  (authInvariant (authState staleState) 0
   /\ ensureValidToken unreachable 2000 2000 staleState
      = (false, staleState,
         [PostToken (RefreshTokenGrant (Some "refresh"%string)); ConsoleError])
   /\ ~ authInvariant (authState staleState) 2000)
  /\ (fst (fst (callback grantForZeroSeconds "code" 2000
                         (mkServer initialAuthState None))) = true
      /\ ~ authInvariant
             (authState (snd (fst (callback grantForZeroSeconds "code" 2000
                                            (mkServer initialAuthState None)))))
             2000).
Proof.
  split; [split; [| split] | split].
  - unfold authInvariant. simpl. split; [auto | reflexivity].
  - reflexivity.
  - unfold authInvariant. simpl. intros [H _].
    destruct (H eq_refl) as [_ H']. discriminate H'.
  - reflexivity.
  - unfold authInvariant. simpl. intros [H _].
    destruct (H eq_refl) as [_ H']. discriminate H'.
Qed.

(** * Further properties of the code *)

(** ** Order of numbers *)

Lemma SFltb_trans (x y z : spec_float) :
  SFltb x y = true -> SFltb y z = true -> SFltb x z = true.
Proof.
  unfold SFltb.
  destruct x as [sx | sx | | sx mx ex], y as [sy | sy | | sy my ey],
           z as [sz | sz | | sz mz ez]; simpl;
    try discriminate; try reflexivity;
    try (destruct sx); try (destruct sy); try (destruct sz);
    try discriminate; try reflexivity.
  all: change (Pos.compare_cont Eq) with Pos.compare.
  all: destruct (Z.compare_spec ex ey), (Z.compare_spec ey ez),
         (Z.compare_spec ex ez);
    try discriminate; try reflexivity; try lia; subst.
  all: destruct (Pos.compare_spec mx my), (Pos.compare_spec my mz),
         (Pos.compare_spec mx mz);
    simpl; try discriminate; try reflexivity; try lia.
Qed.

(** [a > b] and [b > c] give [a > c]. *)
Lemma gt_trans (a b c : number) :
  gt a b = true -> gt b c = true -> gt a c = true.
Proof.
  unfold gt. rewrite !ltb_spec. intros Hab Hbc.
  exact (SFltb_trans _ _ _ Hbc Hab).
Qed.

(** ** The walk of [calculateMCP] *)

(** X1. A series whose prices are all the same number has no pivot:
    every point compares with the average as the first one does, whatever
    the rounded average is. *)
Theorem flat_series_has_no_pivot (dataPoints : list PricePoint) (p : number) :
  (forall pt, In pt dataPoints -> price pt = p) ->
  calculateMCP dataPoints = None.
Proof.
  intros Hflat. apply calculateMCP_none.
  destruct dataPoints as [| first rest]; [reflexivity |].
  unfold pivotPoints. apply crossovers_nil. apply Forall_forall.
  intros pt Hin.
  rewrite (Hflat pt (or_intror Hin)), (Hflat first (or_introl eq_refl)).
  reflexivity.
Qed.

Lemma flat_series_has_no_pivot_witness :
  (forall pt, In pt (series [0.1; 0.1; 0.1]%float) -> price pt = 0.1%float)
  /\ calculateMCP (series [0.1; 0.1; 0.1]%float) = None.
Proof.
  assert (H : forall pt, In pt (series [0.1; 0.1; 0.1]%float) ->
                         price pt = 0.1%float).
  { intros pt [<- | [<- | [<- | []]]]; reflexivity. }
  split; [exact H |].
  exact (flat_series_has_no_pivot _ _ H).
Defined.

Lemma crossovers_length (avg : number) (rest : list PricePoint) :
  forall aboveAvg, length (crossovers avg aboveAvg rest) <= length rest.
Proof.
  induction rest as [| pt rest IH]; intros aboveAvg; simpl; [lia |].
  destruct (Bool.eqb (gt (price pt) avg) aboveAvg); simpl.
  - specialize (IH aboveAvg). lia.
  - specialize (IH (gt (price pt) avg)). lia.
Qed.

(** X2. The walk yields fewer candidates than the series has points, and
    no candidate has more connections than the series has points. *)
Theorem candidates_are_bounded (dataPoints : list PricePoint) :
  length (candidates dataPoints) <= length dataPoints - 1
  /\ Forall (fun c => connections c <= length dataPoints)
            (candidates dataPoints).
Proof.
  unfold candidates, withConnections. split.
  - rewrite length_map. destruct dataPoints as [| first rest]; simpl; [lia |].
    rewrite Nat.sub_0_r. apply crossovers_length.
  - apply Forall_forall. intros c Hin. apply in_map_iff in Hin.
    destruct Hin as (pivot & <- & _). simpl.
    rewrite countConnections_filter. apply filter_length_le.
Qed.

Lemma crossovers_sides (avg : number) (rest : list PricePoint) :
  forall aboveAvg,
    map (fun c => gt (price c) avg) (crossovers avg aboveAvg rest)
    = alternating (negb aboveAvg) (length (crossovers avg aboveAvg rest)).
Proof.
  induction rest as [| pt rest IH]; intros aboveAvg; simpl; [reflexivity |].
  destruct (Bool.eqb (gt (price pt) avg) aboveAvg) eqn:E; [apply IH |].
  apply eqb_false_iff in E. simpl. rewrite IH.
  destruct (gt (price pt) avg), aboveAvg; try reflexivity; congruence.
Qed.

(** X3. The candidates lie on alternating sides of the average: the
    first one on the other side than the first point of the series, each
    further one on the other side than the candidate before it. *)
Theorem candidates_alternate_sides (first : PricePoint)
    (rest : list PricePoint) :
  let dataPoints := first :: rest in
  let avg := avgPrice dataPoints in
  map (fun c => gt (pivot_price c) avg) (candidates dataPoints)
  = alternating (negb (gt (price first) avg))
                (length (candidates dataPoints)).
Proof.
  intros dataPoints avg. unfold candidates, withConnections.
  rewrite map_map, length_map. simpl pivot_price.
  apply crossovers_sides.
Qed.

Lemma increasing_stays_above (avg : number) (rest : list PricePoint) :
  forall prev,
    strictlyIncreasing (prev :: rest) = true ->
    gt (price prev) avg = true ->
    crossovers avg true rest = [].
Proof.
  induction rest as [| pt rest IH]; intros prev Hinc Habove; [reflexivity |].
  simpl in Hinc. apply andb_true_iff in Hinc. destruct Hinc as [Hstep Hinc].
  assert (Hpt : gt (price pt) avg = true) by (eapply gt_trans; eauto).
  simpl. rewrite Hpt. simpl. eapply IH; eauto.
Qed.

Lemma decreasing_stays_below (avg : number) (rest : list PricePoint) :
  forall prev,
    strictlyDecreasing (prev :: rest) = true ->
    gt (price prev) avg = false ->
    crossovers avg false rest = [].
Proof.
  induction rest as [| pt rest IH]; intros prev Hdec Hbelow; [reflexivity |].
  simpl in Hdec. apply andb_true_iff in Hdec. destruct Hdec as [Hstep Hdec].
  assert (Hpt : gt (price pt) avg = false).
  { destruct (gt (price pt) avg) eqn:E; [| reflexivity].
    rewrite (gt_trans _ _ _ Hstep E) in Hbelow. discriminate. }
  simpl. rewrite Hpt. simpl. eapply IH; eauto.
Qed.

Lemma increasing_crosses_once (avg : number) (rest : list PricePoint) :
  forall prev,
    strictlyIncreasing (prev :: rest) = true ->
    length (crossovers avg (gt (price prev) avg) rest) <= 1.
Proof.
  induction rest as [| pt rest IH]; intros prev Hinc; [simpl; lia |].
  pose proof Hinc as Hinc'.
  simpl in Hinc. apply andb_true_iff in Hinc. destruct Hinc as [Hstep Hinc].
  simpl. destruct (Bool.eqb (gt (price pt) avg) (gt (price prev) avg)) eqn:E.
  - apply eqb_prop in E. rewrite <- E. now apply IH.
  - apply eqb_false_iff in E.
    destruct (gt (price pt) avg) eqn:Hpt.
    + rewrite (increasing_stays_above avg rest pt Hinc Hpt). simpl. lia.
    + destruct (gt (price prev) avg) eqn:Hprev; [| congruence].
      rewrite (gt_trans _ _ _ Hstep Hprev) in Hpt. discriminate.
Qed.

Lemma decreasing_crosses_once (avg : number) (rest : list PricePoint) :
  forall prev,
    strictlyDecreasing (prev :: rest) = true ->
    length (crossovers avg (gt (price prev) avg) rest) <= 1.
Proof.
  induction rest as [| pt rest IH]; intros prev Hdec; [simpl; lia |].
  simpl in Hdec. apply andb_true_iff in Hdec. destruct Hdec as [Hstep Hdec].
  simpl. destruct (Bool.eqb (gt (price pt) avg) (gt (price prev) avg)) eqn:E.
  - apply eqb_prop in E. rewrite <- E. now apply IH.
  - apply eqb_false_iff in E.
    destruct (gt (price pt) avg) eqn:Hpt.
    + destruct (gt (price prev) avg) eqn:Hprev; [congruence |].
      rewrite (gt_trans _ _ _ Hstep Hpt) in Hprev. discriminate.
    + rewrite (decreasing_stays_below avg rest pt Hdec Hpt). simpl. lia.
Qed.

(** X4. A strictly monotonic series crosses its average at most once:
    the walk yields at most one candidate, so [calculateMCP] returns
    either none or that one point. *)
Theorem monotonic_series_has_at_most_one_candidate
    (dataPoints : list PricePoint) :
  strictlyMonotonic dataPoints = true ->
  length (candidates dataPoints) <= 1
  /\ (forall best, calculateMCP dataPoints = Some best ->
                   candidates dataPoints = [best]).
Proof.
  intros Hmono.
  assert (Hlen : length (candidates dataPoints) <= 1).
  { unfold candidates, withConnections. rewrite length_map.
    destruct dataPoints as [| first rest]; [simpl; lia |].
    unfold pivotPoints. unfold strictlyMonotonic in Hmono.
    apply orb_true_iff in Hmono. destruct Hmono as [H | H].
    - now apply increasing_crosses_once.
    - now apply decreasing_crosses_once. }
  split; [exact Hlen |]. intros best Hbest.
  destruct dataPoints as [| first rest]; [discriminate |].
  unfold calculateMCP in Hbest. fold (candidates (first :: rest)) in Hbest.
  destruct (candidates (first :: rest)) as [| c [| c' l]]; simpl in *;
    [discriminate | | lia].
  now injection Hbest as <-.
Qed.

Lemma monotonic_series_has_at_most_one_candidate_witness :
  strictlyMonotonic rising = true
  /\ length (candidates rising) <= 1
  /\ (forall best, calculateMCP rising = Some best ->
                   candidates rising = [best]).
Proof.
  split; [reflexivity |].
  exact (monotonic_series_has_at_most_one_candidate rising eq_refl).
Defined.

(** ** The life of the token state *)





(** X7. The token file mirrors the state: whatever [ensureValidToken] or
    the code exchange writes to the token file is the state they leave,
    and they write exactly when they return true having posted. *)
Theorem token_file_mirrors_state (post : TokenEndpoint) (code : string)
    (now nowAfter : Z) (st : Server) :
  (let '(ok, st', events) := ensureValidToken post now nowAfter st in
   (forall content, In (WriteTokenFile content) events ->
                    content = Some (authState st'))
   /\ (In (WriteTokenFile (Some (authState st'))) events
       <-> ok && existsb isPost events = true))
  /\ (let '(ok, st', events) := callback post code nowAfter st in
      (forall content, In (WriteTokenFile content) events ->
                       content = Some (authState st'))
      /\ (In (WriteTokenFile (Some (authState st'))) events
          <-> ok = true)).
Proof.
  split.
  - unfold ensureValidToken.
    destruct (truthy (refreshToken (authState st))); simpl;
      [| split; [intros c [] | split; [intros [] | discriminate]]].
    destruct (truthyExp (expiresAt (authState st))); simpl;
      [| split; [intros c [] | split; [intros [] | discriminate]]].
    destruct (Date_gt _ _); simpl;
      [split; [intros c [] | split; [intros [] | discriminate]] |].
    destruct (post _) as [r | err];
      [destruct (stateFromResponse nowAfter r) as [a |] |]; simpl.
    + split; [| split; auto].
      intros c [H | [H | []]]; [discriminate | now injection H as <-].
    + split; [intros c [H | [H | []]]; discriminate |].
      split; [intros [H | [H | []]]; discriminate | discriminate].
    + split; [intros c [H | [H | []]]; discriminate |].
      split; [intros [H | [H | []]]; discriminate | discriminate].
  - unfold callback.
    destruct (nonEmpty code); simpl;
      [| split; [intros c [] | split; [intros [] | discriminate]]].
    destruct (post _) as [r | err];
      [destruct (stateFromResponse nowAfter r) as [a |] |]; simpl.
    + split; [| split; auto].
      intros c [H | [H | []]]; [discriminate | now injection H as <-].
    + split; [intros c [H | [H | []]]; discriminate |].
      split; [intros [H | [H | []]]; discriminate | discriminate].
    + split; [intros c [H | [H | []]]; discriminate |].
      split; [intros [H | [H | []]]; discriminate | discriminate].
Qed.

(** X8. A restart restores the session: when [ensureValidToken] has
    written the token file, a startup load of that file, made while the
    written expiry is ahead and the written access token is not empty,
    yields the very state the call left, SDK token included. *)
Theorem restart_restores_refreshed_state (post : TokenEndpoint)
    (now nowAfter restart : Z) (st : Server) (content : option AuthState) :
  In (WriteTokenFile content)
     (snd (ensureValidToken post now nowAfter st)) ->
  let st' := snd (fst (ensureValidToken post now nowAfter st)) in
  truthy (accessToken (authState st')) = true ->
  Date_gt (new_Date (expiresAt (authState st'))) (ValidDate restart) = true ->
  loadTokens (writtenFile content) restart = st'.
Proof.
  unfold ensureValidToken.
  destruct (truthy (refreshToken (authState st))); simpl; [| intros []].
  destruct (truthyExp (expiresAt (authState st))); simpl; [| intros []].
  destruct (Date_gt _ _); simpl; [intros [] |].
  destruct (post _) as [r | err];
    [destruct (stateFromResponse nowAfter r) as [a |] eqn:Ha |]; simpl;
    try (intros [H | [H | []]]; discriminate).
  intros [H | [H | []]]; [discriminate |]. injection H as <-.
  intros Hacc Hexp. unfold stateFromResponse in Ha.
  destruct (expires_in r); [| discriminate]. injection Ha as <-.
  simpl in *. now rewrite Hacc, Hexp.
Qed.

Lemma restart_restores_refreshed_state_witness :
  In (WriteTokenFile
        (Some (mkAuth (Some "new-access"%string) (Some "new-refresh"%string)
                      (ExpIso 3602000) true)))
     (snd (ensureValidToken grantForAnHour 2000 2000 staleState))
  /\ loadTokens
       (writtenFile
          (Some (mkAuth (Some "new-access"%string)
                        (Some "new-refresh"%string) (ExpIso 3602000) true)))
       5000
     = snd (fst (ensureValidToken grantForAnHour 2000 2000 staleState)).
Proof.
  assert (H : In (WriteTokenFile
                    (Some (mkAuth (Some "new-access"%string)
                                  (Some "new-refresh"%string)
                                  (ExpIso 3602000) true)))
                 (snd (ensureValidToken grantForAnHour 2000 2000 staleState))).
  { right. left. reflexivity. }
  split; [exact H |].
  exact (restart_restores_refreshed_state grantForAnHour 2000 2000 5000
           staleState _ H eq_refl eq_refl).
Defined.

(** X9. In every state the server can reach, a state flagged as
    authenticated comes with an SDK client that holds the state's access
    token. *)
Theorem authenticated_state_has_sdk_token (st : Server) :
  reachable st ->
  isAuthenticated (authState st) = true ->
  sdkAccessToken st = accessToken (authState st).
Proof.
  induction 1 as [file now | post now nowAfter st Hst IH
                  | post code nowAfter st Hst IH | st Hst IH].
  - destruct file as [| | tokenData]; simpl; try discriminate.
    intros ->. reflexivity.
  - unfold ensureValidToken.
    destruct (truthy (refreshToken (authState st))); simpl; [| exact IH].
    destruct (truthyExp (expiresAt (authState st))); simpl; [| exact IH].
    destruct (Date_gt _ _); simpl; [exact IH |].
    destruct (post _) as [r | err];
      [destruct (stateFromResponse nowAfter r) as [a |] |]; simpl;
      auto.
  - unfold callback. destruct (nonEmpty code); simpl; [| exact IH].
    destruct (post _) as [r | err];
      [destruct (stateFromResponse nowAfter r) as [a |] |]; simpl;
      auto.
  - simpl. discriminate.
Qed.

Lemma authenticated_state_has_sdk_token_witness :
  reachable (snd (fst (ensureValidToken grantForAnHour 2000 2000
                         (loadTokens (Parsed (authState staleState)) 5000))))
  /\ sdkAccessToken
       (snd (fst (ensureValidToken grantForAnHour 2000 2000
                    (loadTokens (Parsed (authState staleState)) 5000))))
     = Some "new-access"%string.
Proof.
  assert (H : reachable
                (snd (fst (ensureValidToken grantForAnHour 2000 2000
                             (loadTokens (Parsed (authState staleState))
                                         5000)))))
    by (apply reach_ensureValidToken, reach_startup).
  split; [exact H |].
  exact (authenticated_state_has_sdk_token _ H eq_refl).
Defined.

(** ** The protected routes *)




Lemma calculateEach_all (sdk : Sdk) (token interval from to : option string)
    (symbols : list string) :
  forall results,
    (forall symbol, In symbol symbols ->
       historicalCandles sdk token symbol interval from to <> None) ->
    exists added,
      calculateEach sdk token interval from to symbols results
      = (Some (added ++ results),
         map (fun symbol =>
                GetHistoricalCandleData token symbol interval from to)
             symbols)
      /\ (forall symbol, In symbol symbols ->
            exists candles,
              historicalCandles sdk token symbol interval from to
              = Some candles
              /\ getResult (added ++ results) symbol
                 = Some (calculateMCP (toDataPoints candles)))
      /\ (forall symbol, ~ In symbol symbols ->
            getResult (added ++ results) symbol = getResult results symbol).
Proof.
  induction symbols as [| s0 others IH]; intros results Hall.
  - exists []. simpl.
    split; [reflexivity | split; [intros symbol [] | reflexivity]].
  - simpl.
    destruct (historicalCandles sdk token s0 interval from to)
      as [candles0 |] eqn:Hs0;
      [| exfalso; apply (Hall s0 (or_introl eq_refl)); exact Hs0].
    set (results' := (s0, calculateMCP (toDataPoints candles0)) :: results).
    destruct (IH results') as (added & Heq & Hin & Hout).
    { intros symbol Hsym. apply Hall. now right. }
    rewrite Heq. exists (added ++ [(s0, calculateMCP (toDataPoints candles0))]).
    rewrite <- app_assoc. simpl. fold results'.
    split; [reflexivity |]. split.
    + intros symbol Hsym.
      destruct (in_dec string_dec symbol others) as [Hothers | Hnot];
        [now apply Hin |].
      destruct Hsym as [<- | Hsym]; [| contradiction].
      exists candles0. split; [exact Hs0 |].
      rewrite (Hout s0 Hnot). unfold results'. simpl.
      now rewrite String.eqb_refl.
    + intros symbol Hnot.
      rewrite Hout by (intros H; apply Hnot; now right).
      unfold results'. simpl.
      destruct (String.eqb_spec s0 symbol) as [-> | _]; [| reflexivity].
      exfalso. apply Hnot. now left.
Qed.

(** X12. When the candles of every requested symbol can be fetched,
    [/mcp/calculate] fetches them once per entry of the request, in its
    order, and answers an object that holds, under each requested symbol,
    [calculateMCP] of the closes of its candles, and nothing under any
    other name.  No symbol is to be [__proto__]. *)
Theorem mcpCalculate_answers_every_symbol (sdk : Sdk)
    (token interval from to : option string) (symbols : list string) :
  symbols <> [] ->
  ~ In "__proto__"%string symbols ->
  (forall symbol, In symbol symbols ->
     historicalCandles sdk token symbol interval from to <> None) ->
  exists results,
    mcpCalculate sdk (Some symbols) interval from to token
    = (Json results,
       map (fun symbol =>
              GetHistoricalCandleData token symbol interval from to)
           symbols)
    /\ (forall symbol, In symbol symbols ->
          exists candles,
            historicalCandles sdk token symbol interval from to
            = Some candles
            /\ getResult results symbol
               = Some (calculateMCP (toDataPoints candles)))
    /\ (forall symbol, ~ In symbol symbols -> getResult results symbol = None).
Proof.
  intros Hne _ Hall.
  destruct (calculateEach_all sdk token interval from to symbols [] Hall)
    as (added & Heq & Hin & Hout).
  exists (added ++ []). unfold mcpCalculate.
  destruct symbols as [| s0 others]; [congruence |].
  rewrite Heq. repeat split; assumption.
Qed.

Lemma mcpCalculate_answers_every_symbol_witness :
  ["NSE_EQ|A"; "NSE_EQ|B"]%string <> []
  /\ ~ In "__proto__"%string ["NSE_EQ|A"; "NSE_EQ|B"]%string
  /\ exists results,
       mcpCalculate sampleSdk (Some ["NSE_EQ|A"; "NSE_EQ|B"]%string)
                    (Some "1D"%string) None None (Some "access"%string)
       = (Json results,
          [GetHistoricalCandleData (Some "access"%string) "NSE_EQ|A"
                                   (Some "1D"%string) None None;
           GetHistoricalCandleData (Some "access"%string) "NSE_EQ|B"
                                   (Some "1D"%string) None None]).
Proof.
  assert (Hne : ["NSE_EQ|A"; "NSE_EQ|B"]%string <> []) by discriminate.
  assert (Hproto : ~ In "__proto__"%string ["NSE_EQ|A"; "NSE_EQ|B"]%string)
    by (intros [H | [H | []]]; discriminate).
  split; [exact Hne |]. split; [exact Hproto |].
  destruct (mcpCalculate_answers_every_symbol sampleSdk
              (Some "access"%string) (Some "1D"%string) None None
              ["NSE_EQ|A"; "NSE_EQ|B"]%string Hne Hproto)
    as (results & Heq & _).
  - intros symbol _. discriminate.
  - exists results. exact Heq.
Defined.

Lemma calculateEach_stops (sdk : Sdk) (token interval from to : option string)
    (bad : string) (after : list string) :
  historicalCandles sdk token bad interval from to = None ->
  forall before results,
    (forall symbol, In symbol before ->
       historicalCandles sdk token symbol interval from to <> None) ->
    calculateEach sdk token interval from to (before ++ bad :: after) results
    = (None,
       map (fun symbol =>
              GetHistoricalCandleData token symbol interval from to)
           (before ++ [bad])).
Proof.
  intros Hbad. induction before as [| s0 before IH]; intros results Hall.
  - simpl. now rewrite Hbad.
  - simpl.
    destruct (historicalCandles sdk token s0 interval from to) eqn:Hs0;
      [| exfalso; apply (Hall s0 (or_introl eq_refl)); exact Hs0].
    rewrite IH; [reflexivity |].
    intros symbol Hsym. apply Hall. now right.
Qed.

(** X13. When the candles of some requested symbol cannot be fetched,
    [/mcp/calculate] answers 500 without any result, having asked for
    the candles of the symbols up to the first such one and of no symbol
    after it. *)
Theorem mcpCalculate_stops_at_first_failure (sdk : Sdk)
    (token interval from to : option string)
    (before : list string) (bad : string) (after : list string) :
  (forall symbol, In symbol before ->
     historicalCandles sdk token symbol interval from to <> None) ->
  historicalCandles sdk token bad interval from to = None ->
  mcpCalculate sdk (Some (before ++ bad :: after)) interval from to token
  = (Status 500,
     map (fun symbol => GetHistoricalCandleData token symbol interval from to)
         (before ++ [bad])).
Proof.
  intros Hall Hbad. unfold mcpCalculate.
  rewrite (calculateEach_stops _ _ _ _ _ _ _ Hbad before [] Hall).
  destruct before; reflexivity.
Qed.

Lemma mcpCalculate_stops_at_first_failure_witness :
  historicalCandles (failingFor "NSE_EQ|B") None "NSE_EQ|B" None None None
  = None
  /\ mcpCalculate (failingFor "NSE_EQ|B")
                  (Some ["NSE_EQ|A"; "NSE_EQ|B"; "NSE_EQ|C"]%string)
                  None None None None
     = (Status 500,
        [GetHistoricalCandleData None "NSE_EQ|A" None None None;
         GetHistoricalCandleData None "NSE_EQ|B" None None None]).
Proof.
  split; [reflexivity |].
  refine (mcpCalculate_stops_at_first_failure (failingFor "NSE_EQ|B")
            None None None None ["NSE_EQ|A"%string] "NSE_EQ|B"
            ["NSE_EQ|C"%string] _ eq_refl).
  intros symbol [<- | []]. discriminate.
Defined.

(** The orders [strategyMcp] sends: at most one, and only for a price
    within the band of a pivot and a quantity above zero. *)
Lemma strategyMcp_orders (placeOrder : OrderRequest -> option string)
    (symbol : string) (dataPoints : list PricePoint)
    (currentPrice investmentAmount : number) (request : OrderRequest) :
  In request (snd (strategyMcp placeOrder symbol dataPoints currentPrice
                               investmentAmount)) ->
  exists mcp,
    calculateMCP dataPoints = Some mcp
    /\ le (mcpDeviation currentPrice mcp) 0.005%float = true
    /\ gt (order_quantity request) 0%float = true
    /\ order_price request = Some currentPrice
    /\ order_symbol request = symbol
    /\ snd (strategyMcp placeOrder symbol dataPoints currentPrice
                        investmentAmount) = [request].
Proof.
  unfold strategyMcp, decide, quantityFor.
  destruct (calculateMCP dataPoints) as [mcp |]; [| intros []].
  destruct (le (mcpDeviation currentPrice mcp) 0.005%float) eqn:Hdev;
    simpl; [| intros []].
  destruct (gt (Math_floor (investmentAmount / currentPrice)%float) 0%float)
    eqn:Hq; [| intros []].
  destruct (placeOrder _); simpl; intros [<- | []];
    exists mcp; repeat split; assumption.
Qed.

(** X14. The strategy route trades only on evidence: an order reaches
    the SDK only after the candles and the quote were fetched, a pivot
    was found in the candles' closes and the quoted price lies within
    0.5% of it; the order is the only one of the call, is priced at the
    quote and has a quantity above zero.  And a quote is asked for only
    once a pivot was found. *)
Theorem strategyRoute_trades_on_evidence (sdk : Sdk) (symbol : string)
    (interval : option string) (fromStr toStr : string)
    (investmentAmount : number) (token : option string) :
  let calls := snd (strategyRoute sdk symbol interval fromStr toStr
                                  investmentAmount token) in
  (forall tok request,
      In (PlaceOrder tok request) calls ->
      exists candles mcp currentPrice,
        historicalCandles sdk token symbol interval
                          (Some fromStr) (Some toStr) = Some candles
        /\ calculateMCP (toDataPoints candles) = Some mcp
        /\ lastPrice sdk token symbol = Some currentPrice
        /\ le (Math_abs (currentPrice - pivot_price mcp)
               / pivot_price mcp)%float 0.005%float = true
        /\ order_price request = Some currentPrice
        /\ gt (order_quantity request) 0%float = true
        /\ calls
           = [GetHistoricalCandleData token symbol interval
                                      (Some fromStr) (Some toStr);
              GetMarketQuoteOHLC token symbol;
              PlaceOrder token request])
  /\ (forall tok sym,
        In (GetMarketQuoteOHLC tok sym) calls ->
        exists candles,
          historicalCandles sdk token symbol interval
                            (Some fromStr) (Some toStr) = Some candles
          /\ calculateMCP (toDataPoints candles) <> None).
Proof.
  intros calls. subst calls. unfold strategyRoute.
  destruct (historicalCandles sdk token symbol interval
                              (Some fromStr) (Some toStr)) as [candles |];
    [| split; [intros tok request [H | []] | intros tok sym [H | []]];
       discriminate].
  destruct (calculateMCP (toDataPoints candles)) as [mcp |] eqn:Hmcp;
    [| split; [intros tok request [H | []] | intros tok sym [H | []]];
       discriminate].
  split; [| intros tok sym _; exists candles; split;
            [reflexivity | rewrite Hmcp; discriminate]].
  destruct (lastPrice sdk token symbol) as [currentPrice |];
    [| intros tok request [H | [H | []]]; discriminate].
  destruct (strategyMcp (orderData sdk token) symbol (toDataPoints candles)
                        currentPrice investmentAmount)
    as [response orders] eqn:Hrun.
  simpl. intros tok request [H | [H | Hin]]; try discriminate.
  apply in_map_iff in Hin. destruct Hin as (req & Heq & Hreq).
  injection Heq as <- <-.
  assert (Hsnd : orders
                 = snd (strategyMcp (orderData sdk token) symbol
                                    (toDataPoints candles) currentPrice
                                    investmentAmount))
    by now rewrite Hrun.
  rewrite Hsnd in Hreq.
  destruct (strategyMcp_orders _ _ _ _ _ _ Hreq)
    as (mcp' & Hmcp' & Hdev & Hq & Hprice & _ & Hone).
  rewrite Hmcp in Hmcp'. injection Hmcp' as <-.
  exists candles, mcp, currentPrice.
  rewrite Hsnd, Hone. repeat split; assumption.
Qed.

(** ** The command-line clients *)

Import ClientRuntime.

Section ClientFacts.

Context {World : Type}.
Variable axios : World -> Request -> AxiosOutcome * World.
Variable question : World -> string -> string * World.

(** [callMCPServer] of the Cursor client turns every failure into
    [null]: it never throws, it sends exactly one request, it returns the
    data of the response or [null] when the request was rejected, and it
    clears [isAuthenticated] exactly when the rejection is a 401. *)
Lemma cursor_callMCPServer_never_throws (endpoint method : string)
    (data : Json) (c : Client (World := World)) :
  let config := requestFor endpoint method data in
  let '(outcome, w) := axios (world c) config in
  CursorClient.callMCPServer axios endpoint method data c
  = (Returns (match outcome with
              | Resolved response_data => response_data
              | Rejected _ => JNull
              end),
     mkClient (match outcome with
               | Resolved _ => isAuthenticated c
               | Rejected status =>
                   if is401 status then false else isAuthenticated c
               end)
              w (sent c ++ [config])).
Proof.
  intros config.
  unfold CursorClient.callMCPServer, tryCatch, bind, awaitAxios.
  fold config. destruct (axios (world c) config) as [outcome w].
  destruct outcome as [response_data | status]; [reflexivity |].
  destruct (is401 status); reflexivity.
Qed.

(** X15. [checkAuthStatus] of the Cursor client cannot say no: whatever
    the server answers to its one request, a 401 included, it returns
    true and leaves [isAuthenticated] set. *)
Theorem cursor_checkAuthStatus_always_true (c : Client (World := World)) :
  exists c',
    CursorClient.checkAuthStatus axios c = (Returns true, c')
    /\ isAuthenticated c' = true
    /\ sent c' = sent c ++ [requestFor "/positions" "GET" JNull].
Proof.
  unfold CursorClient.checkAuthStatus, CursorClient.callMCPServer,
    tryCatch, bind, awaitAxios.
  destruct (axios (world c) _) as [outcome w].
  destruct outcome as [response_data | status];
    [| destruct (is401 status)];
    eexists; repeat split.
Qed.

(** [authenticate] of the Cursor client returns true exactly when
    the server answers its request with truthy data, and then sets
    [isAuthenticated]; on a 401 it clears the flag, and on any other
    failure it returns false with the flag as it was. *)
Lemma cursor_authenticate_by_answer (c : Client (World := World)) :
  let '(_, w1) :=
    question (world c)
             "Press Enter once you have completed authentication..." in
  let config := requestFor "/positions" "GET" JNull in
  let '(outcome, w2) := axios w1 config in
  CursorClient.authenticate axios question c
  = (Returns (match outcome with
              | Resolved result => truthyJson result
              | Rejected _ => false
              end),
     mkClient (match outcome with
               | Resolved result =>
                   if truthyJson result then true else isAuthenticated c
               | Rejected status =>
                   if is401 status then false else isAuthenticated c
               end)
              w2 (sent c ++ [config])).
Proof.
  unfold CursorClient.authenticate, CursorClient.callMCPServer,
    tryCatch, bind, awaitAxios, promptUser.
  destruct (question (world c) _) as [answer w1]. simpl.
  destruct (axios w1 _) as [outcome w2].
  destruct outcome as [result | status]; simpl.
  - destruct (truthyJson result); reflexivity.
  - destruct (is401 status); reflexivity.
Qed.

(** [checkAuthStatus] of the Claude client returns true exactly
    when its request is answered; it sets [isAuthenticated] then, clears
    it on a 401, and leaves it as it was on any other failure. *)
Lemma claude_checkAuthStatus_by_answer (c : Client (World := World)) :
  let '(outcome, w) := axios (world c) ClaudeClient.statusRequest in
  ClaudeClient.checkAuthStatus axios c
  = (Returns (match outcome with
              | Resolved _ => true
              | Rejected _ => false
              end),
     mkClient (match outcome with
               | Resolved _ => true
               | Rejected status =>
                   if is401 status then false else isAuthenticated c
               end)
              w (sent c ++ [ClaudeClient.statusRequest])).
Proof.
  unfold ClaudeClient.checkAuthStatus, tryCatch, bind, awaitAxios.
  destruct (axios (world c) _) as [outcome w].
  destruct outcome as [response_data | status]; [reflexivity |].
  destruct (is401 status); reflexivity.
Qed.

Lemma neverThrows_ret (A : Type) (a : A) :
  neverThrows (World := World) (ret a).
Proof. intros c status c'. discriminate. Qed.

Lemma neverThrows_bind (A B : Type) (m : M (World := World) A)
    (k : A -> M B) :
  neverThrows m -> (forall a, neverThrows (k a)) -> neverThrows (bind m k).
Proof.
  intros Hm Hk c status c'. unfold bind.
  destruct (m c) as [[a | s |] c1] eqn:E.
  - apply Hk.
  - exfalso. exact (Hm _ _ _ E).
  - discriminate.
Qed.

(** A [try] whose [catch] does not throw does not throw. *)
Lemma neverThrows_tryCatch (A : Type) (body : M (World := World) A)
    (handler : option nat -> M A) :
  (forall status, neverThrows (handler status)) ->
  neverThrows (tryCatch body handler).
Proof.
  intros Hh c status c'. unfold tryCatch.
  destruct (body c) as [[a | s |] c1]; [discriminate | apply Hh | discriminate].
Qed.

Lemma neverThrows_claude_checkAuthStatus :
  neverThrows (ClaudeClient.checkAuthStatus axios).
Proof.
  apply neverThrows_tryCatch. intros status.
  destruct (is401 status); [| apply neverThrows_ret].
  apply neverThrows_bind; [| intros; apply neverThrows_ret].
  intros c s c'. discriminate.
Qed.

Lemma neverThrows_claude_authenticate :
  neverThrows (ClaudeClient.authenticate axios question).
Proof.
  apply neverThrows_bind.
  - intros c s c'. unfold promptUser.
    destruct (question (world c) _). discriminate.
  - intros _. apply neverThrows_bind;
      [apply neverThrows_claude_checkAuthStatus |].
    intros [|]; [| apply neverThrows_ret].
    apply neverThrows_bind; [| intros; apply neverThrows_ret].
    intros c s c'. discriminate.
Qed.

(** X16. [callMCPServer] of the Claude client never throws: at every
    depth of retries it returns, data or [null], or is still retrying. *)
Theorem claude_callMCPServer_never_throws (depth : nat)
    (endpoint method : string) (data : Json) :
  neverThrows
    (ClaudeClient.callMCPServer axios question depth endpoint method data).
Proof.
  induction depth as [| depth IH]; [intros c status c'; discriminate |].
  simpl. apply neverThrows_tryCatch. intros status.
  destruct (is401 status); [| apply neverThrows_ret].
  apply neverThrows_bind; [intros c s c'; discriminate |].
  intros _. apply neverThrows_bind; [apply neverThrows_claude_authenticate |].
  intros [|]; [exact IH | apply neverThrows_ret].
Qed.

End ClientFacts.

Section ClaudeRetry.

Context {World : Type}.
Variable axios : World -> Request -> AxiosOutcome * World.
Variable question : World -> string -> string * World.
Variables (endpoint method : string) (data : Json).

(** X17. While the Claude client is not authenticated and its status
    request keeps being rejected, [callMCPServer] gives up without
    asking for the endpoint: it returns [null] after two status requests,
    one of its own check and one of [authenticate], and the flag stays
    clear. *)
Theorem claude_callMCPServer_gives_up_unauthenticated (depth : nat)
    (c : Client (World := World)) :
  isAuthenticated c = false ->
  (forall w, exists status w',
      axios w ClaudeClient.statusRequest = (Rejected status, w')) ->
  exists w',
    ClaudeClient.callMCPServer axios question (S depth) endpoint method data c
    = (Returns JNull,
       mkClient false w'
                (sent c ++ [ClaudeClient.statusRequest;
                            ClaudeClient.statusRequest])).
Proof.
  intros Hflag Hrejects. destruct c as [flag w0 sent0]. simpl in Hflag.
  subst flag. simpl.
  unfold tryCatch, bind, getAuthenticated, ClaudeClient.authenticate,
    ClaudeClient.checkAuthStatus, tryCatch, bind, awaitAxios, promptUser.
  simpl.
  destruct (Hrejects w0) as (s1 & w1 & ->).
  destruct (is401 s1); simpl;
    destruct (question w1 _) as [answer w2]; simpl;
    destruct (Hrejects w2) as (s2 & w3 & ->);
    exists w3; destruct (is401 s2); simpl; rewrite <- app_assoc; reflexivity.
Qed.

Hypothesis status_accepted :
  forall w, exists response_data w',
    axios w ClaudeClient.statusRequest = (Resolved response_data, w').
Hypothesis endpoint_unauthorized :
  forall w, exists w',
    axios w (requestFor endpoint method data) = (Rejected (Some 401), w').

Lemma claude_checkAuthStatus_accepted (c : Client (World := World)) :
  exists w',
    ClaudeClient.checkAuthStatus axios c
    = (Returns true,
       mkClient true w' (sent c ++ [ClaudeClient.statusRequest])).
Proof.
  unfold ClaudeClient.checkAuthStatus, tryCatch, bind, awaitAxios.
  destruct (status_accepted (world c)) as (d & w' & ->).
  exists w'. reflexivity.
Qed.

Lemma claude_authenticate_accepted (c : Client (World := World)) :
  exists w',
    ClaudeClient.authenticate axios question c
    = (Returns true,
       mkClient true w' (sent c ++ [ClaudeClient.statusRequest])).
Proof.
  unfold ClaudeClient.authenticate, bind at 1, promptUser.
  destruct (question (world c) _) as [answer w1].
  unfold bind at 1.
  destruct (claude_checkAuthStatus_accepted
              (mkClient (isAuthenticated c) w1 (sent c))) as (w' & ->).
  exists w'. reflexivity.
Qed.

Lemma claude_request_unauthorized (c : Client (World := World)) :
  exists w',
    awaitAxios axios (requestFor endpoint method data) c
    = (Throws (Some 401),
       mkClient (isAuthenticated c) w'
                (sent c ++ [requestFor endpoint method data])).
Proof.
  unfold awaitAxios.
  destruct (endpoint_unauthorized (world c)) as (w' & ->).
  exists w'. reflexivity.
Qed.

Lemma claude_round (depth : nat) (c : Client (World := World)) :
  exists c1,
    length (sent c) < length (sent c1)
    /\ ClaudeClient.callMCPServer axios question (S depth) endpoint method
                                  data c
       = ClaudeClient.callMCPServer axios question depth endpoint method
                                    data c1.
Proof.
  cbn [ClaudeClient.callMCPServer].
  unfold tryCatch, bind at 1 2, getAuthenticated.
  assert (Hsend : forall c0,
             exists c1,
               length (sent c0) < length (sent c1)
               /\ match
                    bind (awaitAxios axios (requestFor endpoint method data))
                         (fun response_data => ret response_data) c0
                  with
                  | (Throws status, c') =>
                      (if is401 status then
                         bind (setAuthenticated false)
                           (fun _ =>
                              bind (ClaudeClient.authenticate axios question)
                                (fun authenticated =>
                                   if authenticated
                                   then ClaudeClient.callMCPServer axios
                                          question depth endpoint method data
                                   else ret JNull))
                       else ret JNull) c'
                  | other => other
                  end
                  = ClaudeClient.callMCPServer axios question depth endpoint
                                               method data c1).
  { intros c0. unfold bind at 1.
    destruct (claude_request_unauthorized c0) as (w1 & ->).
    cbn [is401 Nat.eqb]. unfold bind at 1, setAuthenticated. unfold bind at 1.
    destruct (claude_authenticate_accepted
                (mkClient false
                   (world (mkClient (isAuthenticated c0) w1
                             (sent c0 ++ [requestFor endpoint method data])))
                   (sent (mkClient (isAuthenticated c0) w1
                            (sent c0 ++ [requestFor endpoint method data])))))
      as (w2 & ->).
    eexists. split; [| reflexivity].
    cbn [sent]. rewrite !length_app. simpl. lia. }
  destruct (isAuthenticated c) eqn:Hflag; cbn [negb].
  - unfold ret at 1. cbn [negb]. apply Hsend.
  - unfold bind at 1.
    destruct (claude_checkAuthStatus_accepted c) as (w1 & ->).
    cbn [negb]. unfold ret at 1. cbn [negb].
    destruct (Hsend (mkClient true w1
                       (sent c ++ [ClaudeClient.statusRequest])))
      as (c1 & Hlen & ->).
    exists c1. split; [| reflexivity].
    cbn [sent] in Hlen. rewrite length_app in Hlen. simpl in Hlen. lia.
Qed.

(** X18. The retry of the Claude client has no bound: against a server
    that accepts the status request and answers 401 to the endpoint,
    [callMCPServer] is still retrying at every depth, having sent more
    requests than the depth. *)
Theorem claude_callMCPServer_retries_forever (depth : nat)
    (c : Client (World := World)) :
  exists c',
    ClaudeClient.callMCPServer axios question depth endpoint method data c
    = (Unfinished, c')
    /\ length (sent c) + depth <= length (sent c').
Proof.
  revert c. induction depth as [| depth IH]; intros c.
  - exists c. split; [reflexivity | lia].
  - destruct (claude_round depth c) as (c1 & Hlen & ->).
    destruct (IH c1) as (c' & -> & Hlen').
    exists c'. split; [reflexivity | lia].
Qed.

End ClaudeRetry.

Lemma claude_callMCPServer_gives_up_unauthenticated_witness :
  isAuthenticated (mkClient false tt []) = false
  /\ exists w',
       ClaudeClient.callMCPServer ClaudeClient.deadAxios
         ClaudeClient.pressEnter 1 "/positions" "GET" JNull
         (mkClient false tt [])
       = (Returns JNull,
          mkClient false w' [ClaudeClient.statusRequest;
                             ClaudeClient.statusRequest]).
Proof.
  split; [reflexivity |].
  refine (claude_callMCPServer_gives_up_unauthenticated
            ClaudeClient.deadAxios ClaudeClient.pressEnter
            "/positions" "GET" JNull 0 (mkClient false tt []) eq_refl _).
  intros w. exists None, w. reflexivity.
Defined.

Lemma claude_callMCPServer_retries_forever_witness :
  (forall w, exists response_data w',
      ClaudeClient.rejectingAxios w ClaudeClient.statusRequest
      = (Resolved response_data, w'))
  /\ (forall w, exists w',
        ClaudeClient.rejectingAxios w (requestFor "/positions" "GET" JNull)
        = (Rejected (Some 401), w'))
  /\ exists c',
       ClaudeClient.callMCPServer ClaudeClient.rejectingAxios
         ClaudeClient.pressEnter 5 "/positions" "GET" JNull
         (mkClient true tt [])
       = (Unfinished, c')
       /\ 0 + 5 <= length (sent c').
Proof.
  assert (H1 : forall w, exists response_data w',
               ClaudeClient.rejectingAxios w ClaudeClient.statusRequest
               = (Resolved response_data, w'))
    by (intros w; exists (JObject []), w; reflexivity).
  assert (H2 : forall w, exists w',
               ClaudeClient.rejectingAxios w
                 (requestFor "/positions" "GET" JNull)
               = (Rejected (Some 401), w'))
    by (intros w; exists w; reflexivity).
  split; [exact H1 |]. split; [exact H2 |].
  exact (claude_callMCPServer_retries_forever ClaudeClient.rejectingAxios
           ClaudeClient.pressEnter "/positions" "GET" JNull H1 H2 5
           (mkClient true tt [])).
Defined.
